(** * weather-forecast: the forecast formatter (js/api.js) and the
      preference store (js/storage.js)

    A shallow embedding of the two logic-bearing modules of the app and the
    properties its specification states about them.

    Conventions of the embedding.
    - A number that comes in (a field of the provider's payload, a number
      in the storage area, an argument) is given as the integer [Z] or the
      rational [Q] that its text writes.  The Number the code computes
      with is the IEEE 754 binary64 value nearest to it, and every
      operation rounds again: [double], [binary64].  The hour of a day and
      its distance to noon are small integers on which the arithmetic is
      exact; they are kept as [number], an integer or [NaN].
    - [String.prototype.toLowerCase] follows the case mapping of the
      host's Unicode tables, which is a parameter: [CaseMapping].
    - A function that can throw returns a [completion]; code that also
      reads and writes [localStorage] runs in the state-and-exception
      monad [JS].
    - [Date.now()] is an argument of the functions that call it, and the
      default value of a parameter is left to the caller.
    - What the code prints on the console is not part of the model. *)

From Stdlib Require Import ZArith QArith Qround Qabs String Ascii List Sorted Lia Lqa.
From stdpp Require Import base gmap strings list pretty.
Import ListNotations.

Local Open Scope string_scope.
Local Open Scope list_scope.
Local Open Scope Z_scope.

(** ** Exceptions *)

Inductive JSError : Type :=
  | RangeError
  | TypeError
  | SyntaxError
  | QuotaExceededError
  | SecurityError.

Inductive completion (A : Type) : Type :=
  | Normal (a : A)
  | Throw (e : JSError).

Arguments Normal {A} a.
Arguments Throw {A} e.

Definition cbind {A B : Type} (c : completion A) (k : A -> completion B)
  : completion B :=
  match c with
  | Normal a => k a
  | Throw e => Throw e
  end.

Declare Scope completion_scope.
Delimit Scope completion_scope with completion.
Notation "'let!' x ':=' c 'in' k" := (cbind c (fun x => k))
  (at level 10, x name, c at level 100, k at level 200) : completion_scope.

Local Open Scope completion_scope.

(** [arr.forEach(f)] where the callback updates an accumulator captured by
    closure: a left fold that stops at the first exception. *)
Fixpoint forEach {A S : Type} (f : S -> A -> completion S) (arr : list A) (s : S)
  : completion S :=
  match arr with
  | [] => Normal s
  | x :: rest => let! s' := f s x in forEach f rest s'
  end.

(** ** Numbers that may be [NaN] *)

Definition number : Type := option Z.

Definition num_sub (a b : number) : number :=
  match a, b with
  | Some x, Some y => Some (x - y)
  | _, _ => None
  end.

Definition Math_abs (a : number) : number := option_map Z.abs a.

(** [a < b]: false as soon as one side is [NaN]. *)
Definition num_lt (a b : number) : bool :=
  match a, b with
  | Some x, Some y => x <? y
  | _, _ => false
  end.

(** [a > b]. *)
Definition num_gt (a b : number) : bool := num_lt b a.

(** ** Numbers: IEEE 754 binary64

    A finite value is the rational it equals, in lowest terms.  The two
    zeros are not told apart: they compare equal, and no function of the
    app looks at the sign of a zero. *)

Inductive double : Type :=
  | NaN
  | Infinity (negative : bool)
  | Finite (q : Q).

(** The integer nearest to [a / b], for [0 < b]; of two that are equally
    near, the even one. *)
Definition nearest_even (a b : Z) : Z :=
  let q := a / b in
  match 2 * (a mod b) ?= b with
  | Lt => q
  | Gt => q + 1
  | Eq => if Z.even q then q else q + 1
  end.

(** [2 ^ k] for [0 <= k], and [1] for [k < 0]: the numerator of [2 ^ k],
    and [pow2 (- k)] is its denominator. *)
Definition pow2 (k : Z) : Z := 2 ^ Z.max 0 k.

(** [floor (log2 (a / b))], for [0 < a] and [0 < b]. *)
Definition log2_ratio (a b : Z) : Z :=
  let e := Z.log2 a - Z.log2 b in
  if a * pow2 (- e) <? b * pow2 e then e - 1 else e.

(** The binary64 value of a real number, here a rational: the nearest
    multiple [n * 2 ^ p] of the unit in the last place, a tie going to
    the even [n] (roundTiesToEven).  The unit has the exponent
    [p = e - 52] where [2 ^ e <= |x| < 2 ^ (e + 1)], and not less than
    [-1074] (the subnormal numbers).  A result of magnitude [2 ^ 1024] or
    more is an infinity. *)
Definition binary64 (x : Q) : double :=
  let a := Qnum x in
  let b := Z.pos (Qden x) in
  if a =? 0 then Finite 0
  else
    let e := log2_ratio (Z.abs a) b in
    let p := Z.max (e - 52) (-1074) in
    let n := nearest_even (a * pow2 (- p)) (b * pow2 p) in
    if 1024 <=? Z.log2 (Z.abs n) + p then Infinity (a <? 0)
    else Finite (Qred (n * pow2 p # Z.to_pos (pow2 (- p)))).

(** The Number of an integer literal. *)
Definition Integer (z : Z) : double := binary64 (inject_Z z).

Definition Qltb (x y : Q) : bool :=
  Qnum x * Z.pos (Qden y) <? Qnum y * Z.pos (Qden x).

Definition Qzero (x : Q) : bool := Qnum x =? 0.

(** [a - b]. *)
Definition double_sub (a b : double) : double :=
  match a, b with
  | NaN, _ | _, NaN => NaN
  | Infinity s, Infinity s' => if Bool.eqb s s' then NaN else Infinity s
  | Infinity s, Finite _ => Infinity s
  | Finite _, Infinity s => Infinity (negb s)
  | Finite x, Finite y => binary64 (x - y)
  end.

(** [a * b]. *)
Definition double_mul (a b : double) : double :=
  match a, b with
  | NaN, _ | _, NaN => NaN
  | Infinity s, Infinity s' => Infinity (xorb s s')
  | Infinity s, Finite y =>
      if Qzero y then NaN else Infinity (xorb s (Qltb y 0))
  | Finite x, Infinity s =>
      if Qzero x then NaN else Infinity (xorb (Qltb x 0) s)
  | Finite x, Finite y => binary64 (x * y)
  end.

(** [a < b]: false as soon as one side is [NaN]. *)
Definition double_lt (a b : double) : bool :=
  match a, b with
  | NaN, _ | _, NaN => false
  | Infinity s, Infinity s' => s && negb s'
  | Infinity s, Finite _ => s
  | Finite _, Infinity s => negb s
  | Finite x, Finite y => Qltb x y
  end.

(** [a > b]. *)
Definition double_gt (a b : double) : bool := double_lt b a.

(** The integer nearest to a rational, a tie going up. *)
Definition round_half_up (q : Q) : Z := Qfloor (q + (1 # 2))%Q.

(** [Math.round]: the nearest integer, a tie going up; [NaN] and the
    infinities are returned as they are. *)
Definition Math_round (x : double) : double :=
  match x with
  | Finite q => Finite (inject_Z (round_half_up q))
  | _ => x
  end.

(** ** Plain objects used as maps

    The own string-keyed properties of an object, in the order
    [Object.values] enumerates them.  For keys that are not array indices
    that order is the order of creation, and assigning to an existing
    property keeps its place. *)

Definition object (A : Type) : Type := list (string * A).

Fixpoint obj_get {A : Type} (o : object A) (k : string) : option A :=
  match o with
  | [] => None
  | (k', v) :: rest => if String.eqb k' k then Some v else obj_get rest k
  end.

Fixpoint obj_set {A : Type} (o : object A) (k : string) (v : A) : object A :=
  match o with
  | [] => [(k, v)]
  | (k', v') :: rest =>
      if String.eqb k' k then (k', v) :: rest else (k', v') :: obj_set rest k v
  end.

Definition Object_values {A : Type} (o : object A) : list A := map snd o.

Definition obj_keys {A : Type} (o : object A) : list string := map fst o.

(** ** Date

    A [Date] holds a time value in milliseconds since the epoch, or is
    invalid.  [new Date(v)] is invalid when [v] lies outside
    +-8.64e15 ms. *)

Definition msPerDay : Z := 86400000.
Definition msPerHour : Z := 3600000.
Definition msPerMinute : Z := 60000.
Definition msPerSecond : Z := 1000.
Definition maxTimeValue : Z := 8640000000000000.

Definition Date : Type := option Z.

Definition newDate (v : Z) : Date :=
  if Z.abs v <=? maxTimeValue then Some v else None.

(** The host's local time zone: the offset, in milliseconds, that local
    time has over UTC at a given instant (it varies with daylight
    saving). *)
Class LocalTimeZone : Type := local_offset : Z -> Z.

(** [date.getHours()]: the hour of the day in local time. *)
Definition getHours `{LocalTimeZone} (d : Date) : number :=
  match d with
  | Some t => Some (((t + local_offset t) / msPerHour) mod 24)
  | None => None
  end.

(** Day number of a time value (days since 1970-01-01, UTC). *)
Definition utcDay (t : Z) : Z := t / msPerDay.

(** Year, month (1..12) and day of the month (1..31) of a day number in the
    proleptic Gregorian calendar.  The computation works in 400-year eras
    of 146097 days that start on a 1st of March. *)
Definition civil_of_era_day (doe : Z) : Z * Z * Z :=
  let yoe := (doe - doe / 1460 + doe / 36524 - doe / 146096) / 365 in
  let doy := doe - (365 * yoe + yoe / 4 - yoe / 100) in
  let mp := (5 * doy + 2) / 153 in
  let d := doy - (153 * mp + 2) / 5 + 1 in
  let m := if mp <? 10 then mp + 3 else mp - 9 in
  (if m <=? 2 then yoe + 1 else yoe, m, d).

Definition civil_from_days (z : Z) : Z * Z * Z :=
  let z' := z + 719468 in
  let era := z' / 146097 in
  let '(y, m, d) := civil_of_era_day (z' mod 146097) in
  (y + 400 * era, m, d).

Definition digit (d : Z) : ascii := ascii_of_N (48 + Z.to_N d).

(** [w] decimal digits of [n], most significant first, zero padded. *)
Fixpoint digits (w : nat) (n : Z) : string :=
  match w with
  | O => EmptyString
  | S w' => String (digit ((n / 10 ^ Z.of_nat w') mod 10)) (digits w' n)
  end.

(** The year of an ISO date: four digits for the years 0 to 9999, a sign
    and six digits for the others. *)
Definition isoYear (y : Z) : string :=
  if (0 <=? y) && (y <=? 9999) then digits 4 y
  else if y <? 0 then String "-" (digits 6 (- y))
  else String "+" (digits 6 y).

(** [YYYY-MM-DD] of a time value, in UTC. *)
Definition isoDate (t : Z) : string :=
  let '(y, m, d) := civil_from_days (utcDay t) in
  (isoYear y ++ "-" ++ digits 2 m ++ "-" ++ digits 2 d)%string.

(** [HH:mm:ss.sss] of a time value, in UTC. *)
Definition isoTime (t : Z) : string :=
  let ms := t mod msPerDay in
  (digits 2 (ms / msPerHour) ++ ":" ++
   digits 2 ((ms / msPerMinute) mod 60) ++ ":" ++
   digits 2 ((ms / msPerSecond) mod 60) ++ "." ++
   digits 3 (ms mod 1000))%string.

(** [date.toISOString()]: throws a [RangeError] on an invalid date. *)
Definition toISOString (d : Date) : completion string :=
  match d with
  | Some t => Normal (isoDate t ++ "T" ++ isoTime t ++ "Z")%string
  | None => Throw RangeError
  end.

(** [s.split(sep)[0]] for a one-character separator: the part of [s]
    before the first occurrence of [sep], all of [s] when there is none. *)
Fixpoint split_head (sep : ascii) (s : string) : string :=
  match s with
  | EmptyString => EmptyString
  | String c rest =>
      if Ascii.eqb c sep then EmptyString else String c (split_head sep rest)
  end.

(** ** js/api.js: the provider's forecast payload *)

Record Main : Type := {
  temp : Q;
  temp_min : Q;
  temp_max : Q;
  main_humidity : Q
}.

Record Weather : Type := {
  weather_description : string;
  weather_icon : string;
  weather_main : string
}.

Record Wind : Type := { speed : Q }.

Record ForecastItem : Type := {
  dt : Z;
  item_main : Main;
  weather : list Weather;
  wind : Wind
}.

Record ForecastData : Type := { data_list : list ForecastItem }.

(** One entry of the formatted forecast.  The humidity is handed on as
    it came. *)
Record DailyForecast : Type := {
  date : string;
  timestamp : Z;
  temperature : double;
  tempMin : double;
  tempMax : double;
  humidity : Q;
  description : string;
  icon : string;
  main : string;
  windSpeed : double
}.

(** The object literal assigned to [dailyForecasts[dateKey]].  Reading
    [item.weather[0].description] throws a [TypeError] when the condition
    list is empty.  The callback builds the entry after
    [date.toISOString()] returned, hence for a time value
    [item.dt * 1000] of at most 8.64e15 in magnitude, which is the exact
    product. *)
Definition forecastEntry (dateKey : string) (item : ForecastItem)
  : completion DailyForecast :=
  match weather item with
  | [] => Throw TypeError
  | w0 :: _ =>
      Normal {| date := dateKey;
                timestamp := dt item * 1000;
                temperature := Math_round (binary64 (temp (item_main item)));
                tempMin := Math_round (binary64 (temp_min (item_main item)));
                tempMax := Math_round (binary64 (temp_max (item_main item)));
                humidity := main_humidity (item_main item);
                description := weather_description w0;
                icon := weather_icon w0;
                main := weather_main w0;
                windSpeed :=
                  Math_round (double_mul (binary64 (speed (wind item)))
                                         (binary64 (36 # 10))) |}
  end.

(** [Math.abs(hour - 12)]. *)
Definition noonDistance (hour : number) : number :=
  Math_abs (num_sub hour (Some 12)).

(** The test of the [if] in the callback:
    [!dailyForecasts[dateKey] || Math.abs(hour - 12) <
       Math.abs(new Date(dailyForecasts[dateKey].timestamp).getHours() - 12)].
    A recorded entry is an object, hence truthy; a date key never names a
    member inherited from [Object.prototype]. *)
Definition replaces `{LocalTimeZone} (dailyForecasts : object DailyForecast)
    (dateKey : string) (hour : number) : bool :=
  match obj_get dailyForecasts dateKey with
  | None => true
  | Some best =>
      num_lt (noonDistance hour)
             (noonDistance (getHours (newDate (timestamp best))))
  end.

(** The body of the [forEach] callback of [formatForecast]. *)
Definition forecastStep `{LocalTimeZone} (dailyForecasts : object DailyForecast)
    (item : ForecastItem) : completion (object DailyForecast) :=
  let date := newDate (dt item * 1000) in
  let! iso := toISOString date in
  let dateKey := split_head "T" iso in
  let hour := getHours date in
  if replaces dailyForecasts dateKey hour then
    let! entry := forecastEntry dateKey item in
    Normal (obj_set dailyForecasts dateKey entry)
  else Normal dailyForecasts.

(** The grouping loop of [formatForecast]. *)
Definition groupByDay `{LocalTimeZone} (items : list ForecastItem)
  : completion (object DailyForecast) :=
  forEach forecastStep items [].

Definition formatForecast `{LocalTimeZone} (data : ForecastData)
  : completion (list DailyForecast) :=
  let! dailyForecasts := groupByDay (data_list data) in
  Normal (take 5 (Object_values dailyForecasts)).

(** ** js/api.js: icon codes *)

(** The emoji literals of [iconMap], by the glyph they stand for. *)
Inductive Emoji : Type :=
  | Sun
  | CrescentMoon
  | SunBehindCloud
  | Cloud
  | CloudWithRain
  | SunBehindRainCloud
  | ThunderCloud
  | Snowflake
  | Fog
  | Thermometer.

(** What a property read on [iconMap] can yield: one of its own emoji
    strings, or a member inherited from [Object.prototype] (a function
    object, or the prototype itself for [__proto__]). *)
Inductive IconValue : Type :=
  | EmojiText (e : Emoji)
  | Inherited (member : string).

Definition iconMap : object Emoji :=
  [ ("01d", Sun); ("01n", CrescentMoon);
    ("02d", SunBehindCloud); ("02n", Cloud);
    ("03d", Cloud); ("03n", Cloud);
    ("04d", Cloud); ("04n", Cloud);
    ("09d", CloudWithRain); ("09n", CloudWithRain);
    ("10d", SunBehindRainCloud); ("10n", CloudWithRain);
    ("11d", ThunderCloud); ("11n", ThunderCloud);
    ("13d", Snowflake); ("13n", Snowflake);
    ("50d", Fog); ("50n", Fog) ].

(** The string-keyed members every object literal inherits. *)
Definition Object_prototype_members : list string :=
  [ "constructor"; "hasOwnProperty"; "isPrototypeOf";
    "propertyIsEnumerable"; "toLocaleString"; "toString"; "valueOf";
    "__proto__"; "__defineGetter__"; "__defineSetter__";
    "__lookupGetter__"; "__lookupSetter__" ].

(** [o[k]] on an object literal: an own property first, then the
    prototype; [None] is [undefined]. *)
Definition literal_get (o : object Emoji) (k : string) : option IconValue :=
  match obj_get o k with
  | Some e => Some (EmojiText e)
  | None =>
      if existsb (String.eqb k) Object_prototype_members
      then Some (Inherited k) else None
  end.

(** [iconMap[iconCode] || fallback]: the emoji strings are not empty and
    the inherited members are objects, so every value found is truthy. *)
Definition getWeatherIcon (iconCode : string) : IconValue :=
  match literal_get iconMap iconCode with
  | Some v => v
  | None => EmojiText Thermometer
  end.

(** ** js/storage.js: values and the storage area *)

(** The JSON data model: what [JSON.parse] can return and
    [JSON.stringify] can encode.  An object is the list of its
    properties in enumeration order. *)
#[warnings="-register-all"] Inductive json : Type :=
  | JNull
  | JBool (b : bool)
  | JNum (n : Z)
  | JStr (s : string)
  | JArr (elems : list json)
  | JObj (props : list (string * json)).

(** A value handed to [saveToStorage]: JSON data, or a value on which
    [JSON.stringify] throws (it holds a [BigInt] or a cycle). *)
Inductive jsvalue : Type :=
  | Data (j : json)
  | Unserializable.

(** A string kept in the storage area, up to what [getFromStorage] can
    see of it: the JSON text of a value, the empty string, or a non-empty
    string that is not a JSON text. *)
Inductive text : Type :=
  | JSONText (j : json)
  | EmptyText
  | MalformedText.

Definition JSON_stringify (v : jsvalue) : completion text :=
  match v with
  | Data j => Normal (JSONText j)
  | Unserializable => Throw TypeError
  end.

Definition JSON_parse (t : text) : completion json :=
  match t with
  | JSONText j => Normal j
  | EmptyText | MalformedText => Throw SyntaxError
  end.

(** Truthiness of a string: all but the empty one. *)
Definition text_truthy (t : text) : bool :=
  match t with
  | EmptyText => false
  | JSONText _ | MalformedText => true
  end.

(** Truthiness of a parsed value. *)
Definition truthy (j : json) : bool :=
  match j with
  | JNull => false
  | JBool b => b
  | JNum n => negb (n =? 0)
  | JStr s => negb (String.eqb s "")
  | JArr _ | JObj _ => true
  end.

(** The browser's storage area: whether the page may use it at all, what
    it holds, and which contents fit its quota. *)
Record LocalStorage : Type := {
  available : bool;
  items : gmap string text;
  within_quota : gmap string text -> bool
}.

Definition with_items (st : LocalStorage) (m : gmap string text) : LocalStorage :=
  {| available := available st; items := m; within_quota := within_quota st |}.

(** Code that reads and writes the storage area and may throw. *)
Definition JS (A : Type) : Type := LocalStorage -> completion A * LocalStorage.

Definition ret {A : Type} (a : A) : JS A := fun st => (Normal a, st).

Definition bind {A B : Type} (c : JS A) (k : A -> JS B) : JS B :=
  fun st =>
    match c st with
    | (Normal a, st') => k a st'
    | (Throw e, st') => (Throw e, st')
    end.

Definition lift {A : Type} (c : completion A) : JS A := fun st => (c, st).

(** [try { body } catch (error) { handler }]: what the body wrote before
    it threw stays written. *)
Definition try_catch {A : Type} (body : JS A) (handler : JSError -> JS A) : JS A :=
  fun st =>
    match body st with
    | (Normal a, st') => (Normal a, st')
    | (Throw e, st') => handler e st'
    end.

Declare Scope js_scope.
Delimit Scope js_scope with js.
Notation "'let*' x ':=' c 'in' k" := (bind c (fun x => k))
  (at level 10, x name, c at level 100, k at level 200) : js_scope.

Local Open Scope js_scope.

(** [localStorage.getItem(key)]; [None] is [null]. *)
Definition localStorage_getItem (key : string) : JS (option text) :=
  fun st =>
    if available st then (Normal (items st !! key), st)
    else (Throw SecurityError, st).

(** [localStorage.setItem(key, value)]. *)
Definition localStorage_setItem (key : string) (t : text) : JS unit :=
  fun st =>
    if available st then
      let m := <[key := t]> (items st) in
      if within_quota st m then (Normal tt, with_items st m)
      else (Throw QuotaExceededError, st)
    else (Throw SecurityError, st).

Definition LAST_CITY : string := "weather_last_city".
Definition FAVORITE_CITIES : string := "weather_favorite_cities".
Definition THEME : string := "weather_theme".
Definition UNIT : string := "weather_unit".
Definition LAST_UPDATE : string := "weather_last_update".

Definition saveToStorage (key : string) (value : jsvalue) : JS bool :=
  try_catch
    (let* serialized := lift (JSON_stringify value) in
     let* _ := localStorage_setItem key serialized in
     ret true)
    (fun error => ret false).

Definition getFromStorage (key : string) : JS json :=
  try_catch
    (let* item := localStorage_getItem key in
     match item with
     | Some t => if text_truthy t then lift (JSON_parse t) else ret JNull
     | None => ret JNull
     end)
    (fun error => ret JNull).

(** ** js/storage.js: favorite cities *)

(** [s.toLowerCase()]: the lower-case mapping of the Unicode tables the
    host was built with.  The code compares names after this mapping
    only, so that the mapping itself stays a parameter. *)
Class CaseMapping : Type := toLowerCase : string -> string.

(** [v.name.toLowerCase()]: reading a property of [null] throws, and so
    does calling [toLowerCase] on anything but a string. *)
Definition name_toLowerCase `{CaseMapping} (v : json) : completion string :=
  match v with
  | JObj props =>
      match obj_get props "name" with
      | Some (JStr s) => Normal (toLowerCase s)
      | _ => Throw TypeError
      end
  | _ => Throw TypeError
  end.

Fixpoint some_of (f : json -> completion bool) (xs : list json) : completion bool :=
  match xs with
  | [] => Normal false
  | x :: rest =>
      let! b := f x in
      if b then Normal true else some_of f rest
  end.

Fixpoint filter_of (f : json -> completion bool) (xs : list json)
  : completion (list json) :=
  match xs with
  | [] => Normal []
  | x :: rest =>
      let! b := f x in
      let! rest' := filter_of f rest in
      Normal (if b then x :: rest' else rest')
  end.

(** [arr.some(f)], [arr.filter(f)] and [arr.push(x)]: only an array has
    these methods, calling them on another value is a [TypeError]. *)
Definition Array_some (arr : json) (f : json -> completion bool) : completion bool :=
  match arr with
  | JArr xs => some_of f xs
  | _ => Throw TypeError
  end.

Definition Array_filter (arr : json) (f : json -> completion bool) : completion json :=
  match arr with
  | JArr xs => let! ys := filter_of f xs in Normal (JArr ys)
  | _ => Throw TypeError
  end.

Definition Array_push (arr : json) (x : json) : completion json :=
  match arr with
  | JArr xs => Normal (JArr (xs ++ [x]))
  | _ => Throw TypeError
  end.

(** [favorites || []]. *)
Definition getFavoriteCities : JS json :=
  let* favorites := getFromStorage FAVORITE_CITIES in
  ret (if truthy favorites then favorites else JArr []).

(** [cityData] is an object, given by its properties; [now] is
    [Date.now()]. *)
Definition addFavoriteCity `{CaseMapping} (cityData : object json) (now : Z)
  : JS bool :=
  try_catch
    (let* favorites := getFavoriteCities in
     let* exists_ := lift (Array_some favorites (fun fav =>
                       let! a := name_toLowerCase fav in
                       let! b := name_toLowerCase (JObj cityData) in
                       Normal (String.eqb a b))) in
     if (exists_ : bool) then ret false
     else
       let* favorites' :=
         lift (Array_push favorites
                 (JObj (obj_set cityData "addedAt" (JNum now)))) in
       saveToStorage FAVORITE_CITIES (Data favorites'))
    (fun error => ret false).

Definition removeFavoriteCity `{CaseMapping} (cityName : string) : JS bool :=
  try_catch
    (let* favorites := getFavoriteCities in
     let* filtered := lift (Array_filter favorites (fun fav =>
                        let! a := name_toLowerCase fav in
                        Normal (negb (String.eqb a (toLowerCase cityName))))) in
     saveToStorage FAVORITE_CITIES (Data filtered))
    (fun error => ret false).

(** ** js/storage.js: the refresh clock *)

(** [ToNumber] of a string, an array or an object goes through the
    host's string conversions, which stay abstract. *)
Class StringConversions : Type := ToNumber_via_string : json -> double.

Definition ToNumber `{StringConversions} (j : json) : double :=
  match j with
  | JNum n => Integer n
  | JBool b => Integer (if b then 1 else 0)
  | JNull => Integer 0
  | JStr _ | JArr _ | JObj _ => ToNumber_via_string j
  end.

Definition saveLastUpdate (timestamp : Z) : JS bool :=
  saveToStorage LAST_UPDATE (Data (JNum timestamp)).

Definition getLastUpdate : JS json := getFromStorage LAST_UPDATE.

Definition needsRefresh `{StringConversions} (minutes : Z) (now : Z) : JS bool :=
  let* lastUpdate := getLastUpdate in
  if negb (truthy lastUpdate) then ret true
  else
    let diff := double_sub (Integer now) (ToNumber lastUpdate) in
    let threshold :=
      double_mul (double_mul (Integer minutes) (Integer 60)) (Integer 1000) in
    ret (double_gt diff threshold).

(** An integer that every Number holds exactly, and so do its neighbours:
    [Number.isSafeInteger]. *)
Definition safe_integer (z : Z) : Prop := Z.abs z <= 2 ^ 53 - 1.

(** ** Reading the numbers *)




(** ** Reading the storage area *)

(** What [getFromStorage key] returns in a given storage area. *)
Definition stored (key : string) (st : LocalStorage) : json :=
  if available st then
    match items st !! key with
    | Some (JSONText j) => j
    | _ => JNull
    end
  else JNull.

(** The favorites as [getFavoriteCities] reads them. *)
Definition favorites_read (st : LocalStorage) : json :=
  if truthy (stored FAVORITE_CITIES st) then stored FAVORITE_CITIES st
  else JArr [].

(** The list of favorites the storage area holds. *)
Definition stored_favorites (st : LocalStorage) : list json :=
  match items st !! FAVORITE_CITIES with
  | Some (JSONText (JArr favs)) => favs
  | _ => []
  end.

(** The lower-cased names of the favorites that have one. *)
Fixpoint lower_names `{CaseMapping} (favs : list json) : list string :=
  match favs with
  | [] => []
  | fav :: rest =>
      match name_toLowerCase fav with
      | Normal n => n :: lower_names rest
      | Throw _ => lower_names rest
      end
  end.

(** No two stored favorites have names that are equal up to case. *)
Definition unique_names `{CaseMapping} (st : LocalStorage) : Prop :=
  NoDup (lower_names (stored_favorites st)).


(** The test of [addFavoriteCity]'s [some]. *)
Definition same_name_as `{CaseMapping} (cityData : object json) (fav : json)
  : completion bool :=
  let! a := name_toLowerCase fav in
  let! b := name_toLowerCase (JObj cityData) in
  Normal (String.eqb a b).

(** The test of [removeFavoriteCity]'s [filter]. *)
Definition other_name_than `{CaseMapping} (cityName : string) (fav : json)
  : completion bool :=
  let! a := name_toLowerCase fav in
  Normal (negb (String.eqb a (toLowerCase cityName))).

(** A favorite goes by [cityName], up to case. *)
Definition named `{CaseMapping} (cityName : string) (fav : json) : bool :=
  match name_toLowerCase fav with
  | Normal a => String.eqb a (toLowerCase cityName)
  | Throw _ => false
  end.

(** The storage area after a successful [setItem]. *)
Definition written (key : string) (j : json) (st : LocalStorage) : LocalStorage :=
  with_items st (<[key := JSONText j]> (items st)).

(** The storage area accepts the write of [j] under [key]. *)
Definition writable (key : string) (j : json) (st : LocalStorage) : bool :=
  available st && within_quota st (<[key := JSONText j]> (items st)).

(** ** Reading the forecast loop *)

(** The time value of a forecast item, [item.dt * 1000]. *)
Definition itemTime (item : ForecastItem) : Z := dt item * 1000.

(** The date key the callback computes for an item:
    [new Date(item.dt * 1000).toISOString().split('T')[0]]. *)
Definition dateKeyOf (item : ForecastItem) : completion string :=
  let! iso := toISOString (newDate (dt item * 1000)) in
  Normal (split_head "T" iso).

(** A time value a [Date] can hold. *)
Definition validTime (t : Z) : Prop := Z.abs t <= maxTimeValue.

(** An item the callback of [formatForecast] runs through without
    throwing: its time is a valid date and it has a weather condition. *)
Definition valid_item (item : ForecastItem) : Prop :=
  validTime (itemTime item) /\ weather item <> [].

(** The hour of the day, in local time, of a time value. *)
Definition localHour `{LocalTimeZone} (t : Z) : Z :=
  ((t + local_offset t) / msPerHour) mod 24.

(** The distance of that hour to noon. *)
Definition hourDistance `{LocalTimeZone} (t : Z) : Z := Z.abs (localHour t - 12).

(** The date keys of a list, each once, in the order of their first
    occurrence. *)
Fixpoint first_occurrences (ks : list string) : list string :=
  match ks with
  | [] => []
  | k :: rest =>
      k :: List.filter (fun k' => negb (String.eqb k k')) (first_occurrences rest)
  end.

(** The keys of [o] after an assignment to [o[k]]. *)
Definition add_key (ks : list string) (k : string) : list string :=
  if existsb (String.eqb k) ks then ks else ks ++ [k].

(** What the grouping loop has established once it went through [items]:
    every recorded entry was built from one of the items, under that
    item's date key, and no item of a date is closer to noon than the
    entry recorded for that date. *)
Record grouped `{LocalTimeZone} (items : list ForecastItem)
    (o : object DailyForecast) : Prop := {
  grouped_from : forall k e, obj_get o k = Some e ->
    exists item, In item items /\ dateKeyOf item = Normal k /\
                 forecastEntry k item = Normal e;
  grouped_closest : forall item k, In item items -> dateKeyOf item = Normal k ->
    exists e, obj_get o k = Some e /\
              hourDistance (timestamp e) <= hourDistance (itemTime item)
}.

(** An earlier UTC day. *)
Definition earlier_day (e1 e2 : DailyForecast) : Prop :=
  utcDay (timestamp e1) < utcDay (timestamp e2).

(** The entries of [o] are in ascending order of their UTC day, each
    under the date key of its own timestamp, none later than [t]. *)
Record ascending_until (t : Z) (o : object DailyForecast) : Prop := {
  ascending_days :
    StronglySorted (fun p q => earlier_day (snd p) (snd q)) o;
  ascending_keys : Forall (fun p => fst p = isoDate (timestamp (snd p)) /\
                                    validTime (timestamp (snd p)) /\
                                    timestamp (snd p) <= t) o
}.

(** The UTC time zone. *)
Definition UTC : LocalTimeZone := fun _ => 0.

(** A forecast item with the given time (in seconds) and temperature. *)
Definition sample (seconds : Z) (celsius : Q) : ForecastItem :=
  {| dt := seconds;
     item_main := {| temp := celsius; temp_min := celsius; temp_max := celsius;
                     main_humidity := 50 |};
     weather := [ {| weather_description := "clear sky";
                     weather_icon := "01d";
                     weather_main := "Clear" |} ];
     wind := {| speed := 10 |} |}.

(** The entry [formatForecast] builds from [sample seconds celsius] whose
    temperature is the integer [rounded]. *)
Definition sample_entry (day : string) (seconds rounded : Z) : DailyForecast :=
  {| date := day; timestamp := seconds * 1000;
     temperature := Finite (inject_Z rounded);
     tempMin := Finite (inject_Z rounded);
     tempMax := Finite (inject_Z rounded);
     humidity := 50; description := "clear sky"; icon := "01d";
     main := "Clear"; windSpeed := Finite 36 |}.

(** Three days of forecast, two samples on the first day. *)
Definition three_days : ForecastData :=
  {| data_list := [ sample 32400 (21 # 2); sample 50400 (25 # 2);
                    sample 129600 14; sample 216000 (31 # 2) ] |}.

(** A payload the provider never sends: the later day comes first. *)
Definition later_day_first : ForecastData :=
  {| data_list := [ sample 129600 14; sample 43200 11 ] |}.

(** ** Storage areas and cities used as examples *)

(** A storage area that takes every write, with nothing in it. *)
Definition empty_storage : LocalStorage :=
  {| available := true; items := ∅; within_quota := fun _ => true |}.

(** A storage area that is full: it takes no write. *)
Definition full_storage : LocalStorage :=
  {| available := true; items := ∅; within_quota := fun _ => false |}.

(** A storage area the page may not use. *)
Definition blocked_storage : LocalStorage :=
  {| available := false; items := ∅; within_quota := fun _ => true |}.

(** A storage area whose favorites entry is not a JSON text. *)
Definition garbled_storage : LocalStorage :=
  {| available := true;
     items := {[ FAVORITE_CITIES := MalformedText ]};
     within_quota := fun _ => true |}.

(** The object [toggleFavorite] passes to [addFavoriteCity]. *)
Definition city (name : string) : object json :=
  [ ("name", JStr name); ("country", JStr "FR"); ("temperature", JNum 18);
    ("icon", JStr "01d");
    ("coords", JObj [("lat", JNum 49); ("lon", JNum 2)]) ].

(** The empty storage area after "Paris" was added at time 1000. *)
Definition paris_saved : LocalStorage :=
  written FAVORITE_CITIES
    (JArr [JObj (obj_set (city "Paris") "addedAt" (JNum 1000))]) empty_storage.

(** A storage area that holds "PARIS" and "Lyon". *)
Definition two_favorites : LocalStorage :=
  written FAVORITE_CITIES
    (JArr [JObj (city "PARIS"); JObj (city "Lyon")]) empty_storage.

(** A host whose string conversions yield [NaN]. *)
Definition NaN_conversions : StringConversions := fun _ => NaN.

(** A case mapping for the examples: that of the letters of Basic Latin
    and of the Latin-1 Supplement, on strings in UTF-8.  There a letter of
    the supplement is the byte [0xC3] and a second byte, which is
    [0x80]..[0x9E] for a capital letter ([0x97] is the multiplication
    sign) and 32 more for its small letter. *)
Definition lower_basic_latin (c : ascii) : ascii :=
  let n := N_of_ascii c in
  if ((65 <=? n) && (n <=? 90))%N then ascii_of_N (n + 32) else c.

Definition lower_latin1_supplement (c : ascii) : ascii :=
  let n := N_of_ascii c in
  if ((128 <=? n) && (n <=? 158) && negb (n =? 151))%N then ascii_of_N (n + 32)
  else c.

Fixpoint lower_latin (s : string) : string :=
  match s with
  | EmptyString => EmptyString
  | String c rest =>
      if (N_of_ascii c =? 195)%N then
        match rest with
        | EmptyString => String c EmptyString
        | String c' rest' =>
            String c (String (lower_latin1_supplement c') (lower_latin rest'))
        end
      else String (lower_basic_latin c) (lower_latin rest)
  end.

Definition Latin : CaseMapping := lower_latin.

(** The empty storage area after [saveLastUpdate(t)]. *)
Definition updated_at (t : Z) : LocalStorage :=
  written LAST_UPDATE (JNum t) empty_storage.

(** ** js/storage.js: removing entries *)

(** [localStorage.removeItem(key)]: removing never exceeds the quota. *)
Definition localStorage_removeItem (key : string) : JS unit :=
  fun st =>
    if available st then (Normal tt, with_items st (delete key (items st)))
    else (Throw SecurityError, st).

Definition removeFromStorage (key : string) : JS bool :=
  try_catch
    (let* _ := localStorage_removeItem key in
     ret true)
    (fun error => ret false).

(** The object [STORAGE_KEYS]. *)
Definition STORAGE_KEYS : object string :=
  [ ("LAST_CITY", LAST_CITY);
    ("FAVORITE_CITIES", FAVORITE_CITIES);
    ("THEME", THEME);
    ("UNIT", UNIT);
    ("LAST_UPDATE", LAST_UPDATE) ].

(** [Object.entries(o)]. *)
Definition Object_entries {A : Type} (o : object A) : list (string * A) := o.

(** [arr.forEach(f)] for a callback that reads and writes the storage
    area and updates an accumulator captured by closure. *)
Fixpoint forEachJS {A S : Type} (f : S -> A -> JS S) (arr : list A) (s : S) : JS S :=
  match arr with
  | [] => ret s
  | x :: rest => let* s' := f s x in forEachJS f rest s'
  end.

Definition clearAllStorage : JS bool :=
  try_catch
    (let* _ := forEachJS (fun (_ : unit) key => localStorage_removeItem key)
                 (Object_values STORAGE_KEYS) tt in
     ret true)
    (fun error => ret false).

(** ** js/storage.js: the typed accessors *)

Definition saveLastCity (city : string) (now : Z) : JS bool :=
  saveToStorage LAST_CITY
    (Data (JObj [("name", JStr city); ("timestamp", JNum now)])).

Definition getLastCity : JS json := getFromStorage LAST_CITY.

Definition saveTheme (theme : string) : JS bool :=
  saveToStorage THEME (Data (JStr theme)).

Definition getTheme : JS json := getFromStorage THEME.

Definition saveUnit (unit : string) : JS bool :=
  saveToStorage UNIT (Data (JStr unit)).

(** [getFromStorage(STORAGE_KEYS.UNIT) || 'celsius']. *)
Definition getUnit : JS json :=
  let* unit := getFromStorage UNIT in
  ret (if truthy unit then unit else JStr "celsius").

(** ** js/storage.js: looking up and updating a favorite *)

(** This function has no [try]: what the scan throws reaches the
    caller. *)
Definition isFavoriteCity `{CaseMapping} (cityName : string) : JS bool :=
  let* favorites := getFavoriteCities in
  lift (Array_some favorites (fun fav =>
          let! a := name_toLowerCase fav in
          Normal (String.eqb a (toLowerCase cityName)))).

(** [xs.findIndex(f)], counting from [i]: the index of the first element
    that passes the test, [-1] when there is none. *)
Fixpoint findIndex_from (f : json -> completion bool) (xs : list json) (i : Z)
  : completion Z :=
  match xs with
  | [] => Normal (-1)
  | x :: rest =>
      let! b := f x in
      if b then Normal i else findIndex_from f rest (i + 1)
  end.

(** The own enumerable properties of a value, as an object spread copies
    them: the properties of an object, the indexed elements of an array,
    the indexed characters of a string, none for the other values;
    [None] is [undefined]. *)
Definition own_properties (v : option json) : object json :=
  match v with
  | Some (JObj props) => props
  | Some (JArr elems) => imap (fun i x => (pretty i, x)) elems
  | Some (JStr s) =>
      imap (fun i c => (pretty i, JStr (String c EmptyString)))
           (list_ascii_of_string s)
  | _ => []
  end.

(** [{ ...target, ...source }]: the properties of [source] are assigned
    in their order. *)
Definition spread (target source : object json) : object json :=
  fold_left (fun o p => obj_set o (fst p) (snd p)) source target.

(** [weatherData] is an object, given by its properties.  [findIndex]
    returns [-1] or an index of the array, so the read of
    [favorites[index]] and the assignment to it stay within the array. *)
Definition updateFavoriteCityWeather `{CaseMapping} (cityName : string)
    (weatherData : object json) (now : Z) : JS bool :=
  try_catch
    (let* favorites := getFavoriteCities in
     match favorites with
     | JArr xs =>
         let* index := lift (findIndex_from (fun fav =>
                         let! a := name_toLowerCase fav in
                         Normal (String.eqb a (toLowerCase cityName))) xs 0) in
         if negb (index =? -1) then
           let updated :=
             JObj (obj_set (spread (own_properties (xs !! Z.to_nat index))
                                   weatherData)
                           "lastUpdated" (JNum now)) in
           saveToStorage FAVORITE_CITIES
             (Data (JArr (<[Z.to_nat index := updated]> xs)))
         else ret false
     | _ => lift (Throw TypeError)
     end)
    (fun error => ret false).

(** ** js/storage.js: export and import *)

Definition exportData : JS json :=
  try_catch
    (let* data := forEachJS (fun data (entry : string * string) =>
                     let* value := getFromStorage (snd entry) in
                     ret (obj_set data (fst entry) value))
                   (Object_entries STORAGE_KEYS) [] in
     ret (JObj data))
    (fun error => ret JNull).

(** [data] is an object, given by its properties; a property that is
    missing reads as [undefined]. *)
Definition importData (data : object json) : JS bool :=
  try_catch
    (let* _ := forEachJS (fun (_ : unit) (entry : string * string) =>
                   match obj_get data (fst entry) with
                   | Some value =>
                       let* _ := saveToStorage (snd entry) (Data value) in
                       ret tt
                   | None => ret tt
                   end)
                 (Object_entries STORAGE_KEYS) tt in
     ret true)
    (fun error => ret false).

(** ** js/api.js: current conditions *)

Record Sys : Type := {
  sys_country : string;
  sys_sunrise : Z;
  sys_sunset : Z
}.

Record Coord : Type := { lat : Q; lon : Q }.

Record CurrentMain : Type := {
  current_temp : Q;
  feels_like : Q;
  current_humidity : Q;
  current_pressure : Q
}.

(** The provider's record of the current conditions. *)
Record CurrentData : Type := {
  data_name : string;
  data_sys : Sys;
  data_main : CurrentMain;
  data_wind : Wind;
  data_weather : list Weather;
  data_dt : Z;
  data_coord : Coord
}.

(** The record [formatCurrentWeather] returns.  Humidity, pressure and
    coordinates are handed on as they came. *)
Record CurrentWeather : Type := {
  cw_city : string;
  cw_country : string;
  cw_temperature : double;
  cw_feelsLike : double;
  cw_humidity : Q;
  cw_pressure : Q;
  cw_windSpeed : double;
  cw_description : string;
  cw_icon : string;
  cw_main : string;
  cw_timestamp : double;
  cw_sunrise : double;
  cw_sunset : double;
  cw_coords : Coord
}.

(** Reading [data.weather[0].description] throws a [TypeError] when the
    condition list is empty. *)
Definition formatCurrentWeather (data : CurrentData) : completion CurrentWeather :=
  match data_weather data with
  | [] => Throw TypeError
  | w0 :: _ =>
      Normal {| cw_city := data_name data;
                cw_country := sys_country (data_sys data);
                cw_temperature :=
                  Math_round (binary64 (current_temp (data_main data)));
                cw_feelsLike :=
                  Math_round (binary64 (feels_like (data_main data)));
                cw_humidity := current_humidity (data_main data);
                cw_pressure := current_pressure (data_main data);
                cw_windSpeed :=
                  Math_round (double_mul (binary64 (speed (data_wind data)))
                                         (binary64 (36 # 10)));
                cw_description := weather_description w0;
                cw_icon := weather_icon w0;
                cw_main := weather_main w0;
                cw_timestamp := double_mul (Integer (data_dt data)) (Integer 1000);
                cw_sunrise :=
                  double_mul (Integer (sys_sunrise (data_sys data))) (Integer 1000);
                cw_sunset :=
                  double_mul (Integer (sys_sunset (data_sys data))) (Integer 1000);
                cw_coords := {| lat := lat (data_coord data);
                                lon := lon (data_coord data) |} |}
  end.

(** ** js/api.js: the requests

    The request functions are [async]: each awaits [fetch(url)] and
    [response.json()].  Here the settled promise of [fetch] is an argument
    of the function, the settled promise of [response.json()] is a field of
    the response, and the function returns the settled state of its own
    promise.  The URL is not part of the model. *)

(** What a promise is rejected with: a value thrown by the language, or
    [new Error(message)]. *)
Inductive reason : Type :=
  | Native (e : JSError)
  | Error (message : string).

(** A settled promise. *)
Inductive settled (A : Type) : Type :=
  | Fulfilled (a : A)
  | Rejected (r : reason).

Arguments Fulfilled {A} a.
Arguments Rejected {A} r.

Record Response (Body : Type) : Type := {
  ok : bool;
  status : Z;
  statusText : string;
  json_body : settled Body
}.

Arguments ok {Body} _.
Arguments status {Body} _.
Arguments statusText {Body} _.
Arguments json_body {Body} _.

(** How a call that may throw settles inside an [async] function. *)
Definition settle {A : Type} (c : completion A) : settled A :=
  match c with
  | Normal a => Fulfilled a
  | Throw e => Rejected (Native e)
  end.

Definition getCurrentWeather (fetched : settled (Response CurrentData))
  : settled CurrentWeather :=
  match fetched with
  | Rejected error => Rejected error
  | Fulfilled response =>
      if negb (ok response) then
        if status response =? 404 then
          Rejected (Error "City not found. Please check the spelling and try again.")
        else if status response =? 401 then
          Rejected (Error "Invalid API key. Please check your configuration.")
        else
          Rejected (Error ("Failed to fetch weather data: " ++ statusText response)%string)
      else
        match json_body response with
        | Rejected error => Rejected error
        | Fulfilled data => settle (formatCurrentWeather data)
        end
  end.

Definition getCurrentWeatherByCoords (fetched : settled (Response CurrentData))
  : settled CurrentWeather :=
  match fetched with
  | Rejected error => Rejected error
  | Fulfilled response =>
      if negb (ok response) then
        Rejected (Error ("Failed to fetch weather data: " ++ statusText response)%string)
      else
        match json_body response with
        | Rejected error => Rejected error
        | Fulfilled data => settle (formatCurrentWeather data)
        end
  end.

(** [getForecast] and [getForecastByCoords] differ in the URL only. *)
Definition getForecast `{LocalTimeZone} (fetched : settled (Response ForecastData))
  : settled (list DailyForecast) :=
  match fetched with
  | Rejected error => Rejected error
  | Fulfilled response =>
      if negb (ok response) then
        Rejected (Error ("Failed to fetch forecast data: " ++ statusText response)%string)
      else
        match json_body response with
        | Rejected error => Rejected error
        | Fulfilled data => settle (formatForecast data)
        end
  end.

(** An entry of the list [searchCities] returns. *)
Record CityMatch : Type := {
  match_name : string;
  match_country : string;
  match_lat : Q;
  match_lon : Q
}.

(** Whatever goes wrong, [searchCities] returns the empty list. *)
Definition searchCities (fetched : settled (Response CurrentData))
  : settled (list CityMatch) :=
  match fetched with
  | Rejected error => Fulfilled []
  | Fulfilled response =>
      if negb (ok response) then Fulfilled []
      else
        match json_body response with
        | Rejected error => Fulfilled []
        | Fulfilled data =>
            Fulfilled [ {| match_name := data_name data;
                           match_country := sys_country (data_sys data);
                           match_lat := lat (data_coord data);
                           match_lon := lon (data_coord data) |} ]
        end
  end.

(** ** More example data *)

(** Current conditions as the provider sends them. *)
Definition paris_now : CurrentData :=
  {| data_name := "Paris";
     data_sys := {| sys_country := "FR"; sys_sunrise := 21600; sys_sunset := 64800 |};
     data_main := {| current_temp := 37 # 2; feels_like := 71 # 4;
                     current_humidity := 60; current_pressure := 1013 |};
     data_wind := {| speed := 10 |};
     data_weather := [ {| weather_description := "clear sky";
                          weather_icon := "01d";
                          weather_main := "Clear" |} ];
     data_dt := 43200;
     data_coord := {| lat := 4885 # 100; lon := 235 # 100 |} |}.

(** A storage area whose favorites entry is a number. *)
Definition number_for_favorites : LocalStorage :=
  written FAVORITE_CITIES (JNum 5) empty_storage.

(** A storage area that holds other keys beside the app's. *)
Definition shared_storage : LocalStorage :=
  written "other_app" (JStr "kept")
    (written THEME (JStr "dark") (written UNIT (JStr "fahrenheit") empty_storage)).

(** ** Reading the favorites functions *)

(** The test of [isFavoriteCity]'s [some] and of
    [updateFavoriteCityWeather]'s [findIndex]. *)
Definition name_is `{CaseMapping} (cityName : string) (fav : json)
  : completion bool :=
  let! a := name_toLowerCase fav in
  Normal (String.eqb a (toLowerCase cityName)).

(** The entry [updateFavoriteCityWeather] puts in the place of a favorite
    with the properties [props]. *)
Definition updated_favorite (props weatherData : object json) (now : Z) : json :=
  JObj (obj_set (spread props weatherData) "lastUpdated" (JNum now)).

(** A storage area that takes every write. *)
Definition roomy (st : LocalStorage) : Prop :=
  available st = true /\ forall m, within_quota st m = true.

(** * Properties of binary64 *)















(** ** The rounding error of binary64 *)














(** ** Rounded readings *)




(** * Properties of objects and loops *)

Lemma obj_get_set_ne {A : Type} (o : object A) (k k' : string) (v : A) :
  k <> k' -> obj_get (obj_set o k v) k' = obj_get o k'.
Proof.
  intros Hne. induction o as [| [k0 v0] rest IH]; simpl.
  - destruct (String.eqb_spec k k'); [contradiction | reflexivity].
  - destruct (String.eqb_spec k0 k) as [-> |]; simpl.
    + destruct (String.eqb_spec k k'); [contradiction | reflexivity].
    + destruct (String.eqb_spec k0 k'); [reflexivity | apply IH].
Qed.

Lemma obj_get_set_eq {A : Type} (o : object A) (k : string) (v : A) :
  obj_get (obj_set o k v) k = Some v.
Proof.
  induction o as [| [k0 v0] rest IH]; simpl.
  - rewrite String.eqb_refl. reflexivity.
  - destruct (String.eqb_spec k0 k) as [-> | Hne]; simpl.
    + rewrite String.eqb_refl. reflexivity.
    + destruct (String.eqb_spec k0 k); [contradiction | apply IH].
Qed.

Lemma obj_get_set {A : Type} (o : object A) (k k' : string) (v : A) :
  obj_get (obj_set o k v) k' =
  if String.eqb k k' then Some v else obj_get o k'.
Proof.
  destruct (String.eqb_spec k k') as [<- | Hne].
  - apply obj_get_set_eq.
  - apply obj_get_set_ne. exact Hne.
Qed.

Lemma obj_get_keys {A : Type} (o : object A) (k : string) :
  existsb (String.eqb k) (obj_keys o) =
  match obj_get o k with Some _ => true | None => false end.
Proof.
  induction o as [| [k0 v0] rest IH]; simpl; [reflexivity |].
  rewrite (String.eqb_sym k k0).
  destruct (String.eqb k0 k); simpl; [reflexivity | exact IH].
Qed.

Lemma obj_keys_set {A : Type} (o : object A) (k : string) (v : A) :
  obj_keys (obj_set o k v) = add_key (obj_keys o) k.
Proof.
  unfold add_key. induction o as [| [k0 v0] rest IH]; simpl; [reflexivity |].
  rewrite (String.eqb_sym k k0).
  destruct (String.eqb k0 k); simpl; [reflexivity |].
  rewrite IH. destruct (existsb (String.eqb k) (obj_keys rest)); reflexivity.
Qed.

Lemma forEach_app {A S : Type} (f : S -> A -> completion S) (l1 l2 : list A)
    (s : S) :
  forEach f (l1 ++ l2) s = (let! s' := forEach f l1 s in forEach f l2 s').
Proof.
  revert s. induction l1 as [| x l1 IH]; intros s; simpl; [reflexivity |].
  destruct (f s x) as [s' |]; simpl; [apply IH | reflexivity].
Qed.

(** * Properties of the calendar *)

Lemma era_year_bounds (doe : Z) :
  0 <= doe < 146097 ->
  0 <= (doe - doe / 1460 + doe / 36524 - doe / 146096) / 365 <= 399.
Proof. intros Hdoe. Z.to_euclidean_division_equations. lia. Qed.

Lemma era_day_of_year_bounds (doe : Z) :
  0 <= doe < 146097 ->
  let yoe := (doe - doe / 1460 + doe / 36524 - doe / 146096) / 365 in
  0 <= doe - (365 * yoe + yoe / 4 - yoe / 100) <= 365.
Proof. intros Hdoe. cbv zeta. Z.to_euclidean_division_equations. lia. Qed.

(** A day of an era is fixed by its date, and the year of a date that
    belongs to the era stays within the era's 400 years. *)
Lemma civil_of_era_day_inj (doe1 doe2 era1 era2 y1 y2 m d : Z) :
  0 <= doe1 < 146097 -> 0 <= doe2 < 146097 ->
  civil_of_era_day doe1 = (y1, m, d) ->
  civil_of_era_day doe2 = (y2, m, d) ->
  y1 + 400 * era1 = y2 + 400 * era2 ->
  doe1 = doe2 /\ era1 = era2.
Proof.
  intros H1 H2. unfold civil_of_era_day.
  pose proof (era_year_bounds doe1 H1) as Hy1.
  pose proof (era_year_bounds doe2 H2) as Hy2.
  pose proof (era_day_of_year_bounds doe1 H1) as Hd1.
  pose proof (era_day_of_year_bounds doe2 H2) as Hd2.
  cbv zeta in Hd1, Hd2 |- *.
  set (yoe1 := (doe1 - doe1 / 1460 + doe1 / 36524 - doe1 / 146096) / 365) in *.
  set (yoe2 := (doe2 - doe2 / 1460 + doe2 / 36524 - doe2 / 146096) / 365) in *.
  set (doy1 := doe1 - (365 * yoe1 + yoe1 / 4 - yoe1 / 100)) in *.
  set (doy2 := doe2 - (365 * yoe2 + yoe2 / 4 - yoe2 / 100)) in *.
  set (mp1 := (5 * doy1 + 2) / 153). set (mp2 := (5 * doy2 + 2) / 153).
  assert (Hmp1 : 0 <= mp1 <= 11)
    by (subst mp1; Z.to_euclidean_division_equations; lia).
  assert (Hmp2 : 0 <= mp2 <= 11)
    by (subst mp2; Z.to_euclidean_division_equations; lia).
  intros E1 E2 Hy.
  injection E1 as Ey1 Em1 Ed1. injection E2 as Ey2 Em2 Ed2.
  rewrite Em1 in Ey1. rewrite Em2 in Ey2.
  assert (Hmp : mp1 = mp2).
  { destruct (mp1 <? 10) eqn:L1, (mp2 <? 10) eqn:L2;
      rewrite ?Z.ltb_lt, ?Z.ltb_ge in *; lia. }
  assert (Hyoe : yoe1 = yoe2 /\ era1 = era2) by (destruct (m <=? 2); lia).
  destruct Hyoe as [Hyoe Hera]. split; [| exact Hera].
  assert (Hdoy : doy1 = doy2) by (rewrite <- Hmp in Ed2; lia).
  subst doy1 doy2. rewrite <- Hyoe in Hdoy. lia.
Qed.

Lemma civil_of_era_day_bounds (doe y m d : Z) :
  0 <= doe < 146097 ->
  civil_of_era_day doe = (y, m, d) ->
  0 <= y <= 400 /\ 1 <= m <= 12 /\ 1 <= d <= 31.
Proof.
  intros Hdoe. unfold civil_of_era_day.
  pose proof (era_year_bounds doe Hdoe) as Hy.
  pose proof (era_day_of_year_bounds doe Hdoe) as Hd.
  cbv zeta in Hd |- *.
  set (yoe := (doe - doe / 1460 + doe / 36524 - doe / 146096) / 365) in *.
  set (doy := doe - (365 * yoe + yoe / 4 - yoe / 100)) in *.
  set (mp := (5 * doy + 2) / 153).
  assert (Hmp : 0 <= mp <= 11)
    by (subst mp; Z.to_euclidean_division_equations; lia).
  assert (Hdom : 1 <= doy - (153 * mp + 2) / 5 + 1 <= 31)
    by (subst mp; Z.to_euclidean_division_equations; lia).
  intros E. injection E as Ey Em Ed. rewrite Em in Ey.
  destruct (mp <? 10) eqn:L; rewrite ?Z.ltb_lt, ?Z.ltb_ge in L;
    destruct (m <=? 2); lia.
Qed.

Lemma civil_from_days_inj (z1 z2 : Z) :
  civil_from_days z1 = civil_from_days z2 -> z1 = z2.
Proof.
  unfold civil_from_days.
  pose proof (Z.mod_pos_bound (z1 + 719468) 146097 ltac:(lia)) as H1.
  pose proof (Z.mod_pos_bound (z2 + 719468) 146097 ltac:(lia)) as H2.
  destruct (civil_of_era_day ((z1 + 719468) mod 146097)) as [[y1 m1] d1] eqn:E1.
  destruct (civil_of_era_day ((z2 + 719468) mod 146097)) as [[y2 m2] d2] eqn:E2.
  intros E. injection E as Hy Hm Hd. subst m2 d2.
  destruct (civil_of_era_day_inj _ _ _ _ _ _ _ _ H1 H2 E1 E2 Hy) as [Hdoe Hera].
  pose proof (Z.div_mod (z1 + 719468) 146097 ltac:(lia)).
  pose proof (Z.div_mod (z2 + 719468) 146097 ltac:(lia)).
  lia.
Qed.

(** The date of a valid time value: the year has at most six digits. *)
Lemma civil_of_valid_time (t y m d : Z) :
  validTime t ->
  civil_from_days (utcDay t) = (y, m, d) ->
  -999999 <= y <= 999999 /\ 1 <= m <= 12 /\ 1 <= d <= 31.
Proof.
  unfold validTime, maxTimeValue, utcDay, msPerDay, civil_from_days.
  intros Ht.
  pose proof (Z.mod_pos_bound (t / 86400000 + 719468) 146097 ltac:(lia)) as Hdoe.
  destruct (civil_of_era_day ((t / 86400000 + 719468) mod 146097))
    as [[y0 m0] d0] eqn:E.
  destruct (civil_of_era_day_bounds _ _ _ _ Hdoe E) as (Hy & Hm & Hd).
  intros E'. injection E' as <- <- <-.
  split; [| split; assumption].
  assert (-100000000 <= t / 86400000 <= 100000000)
    by (Z.to_euclidean_division_equations; lia).
  Z.to_euclidean_division_equations. lia.
Qed.

(** * Properties of the rendering of dates *)

Lemma digit_range (d : Z) :
  0 <= d <= 9 -> (48 <= N_of_ascii (digit d) <= 57)%N.
Proof.
  intros Hd. unfold digit. rewrite N_ascii_embedding; lia.
Qed.

Lemma digit_inj (a b : Z) :
  0 <= a <= 9 -> 0 <= b <= 9 -> digit a = digit b -> a = b.
Proof.
  intros Ha Hb E. apply (f_equal N_of_ascii) in E. unfold digit in E.
  rewrite !N_ascii_embedding in E; lia.
Qed.

Lemma decimal_digit (n p : Z) : 0 <= (n / p) mod 10 <= 9.
Proof. pose proof (Z.mod_pos_bound (n / p) 10 ltac:(lia)). lia. Qed.

Lemma digit_not (c : ascii) (d : Z) :
  0 <= d <= 9 -> (N_of_ascii c < 48 \/ 57 < N_of_ascii c)%N ->
  Ascii.eqb (digit d) c = false.
Proof.
  intros Hd Hc. apply Ascii.eqb_neq. intros E.
  pose proof (digit_range d Hd) as Hr. rewrite E in Hr. lia.
Qed.

Lemma append_cons (c : ascii) (s r : string) :
  (String c s ++ r)%string = String c (s ++ r).
Proof. reflexivity. Qed.

Lemma String_inj (c1 c2 : ascii) (s1 s2 : string) :
  String c1 s1 = String c2 s2 -> c1 = c2 /\ s1 = s2.
Proof. intros E. injection E as E1 E2. tauto. Qed.

Lemma append_nil (r : string) : ("" ++ r)%string = r.
Proof. reflexivity. Qed.

Lemma append_nil_r (s : string) : (s ++ "")%string = s.
Proof.
  induction s as [| c s IH]; [reflexivity |].
  rewrite append_cons, IH. reflexivity.
Qed.

(** Two renderings of the same width that agree, each followed by some
    text, are renderings of numbers that agree on their last [w]
    digits. *)
Lemma digits_app_inj (w : nat) (n1 n2 : Z) (r1 r2 : string) :
  (digits w n1 ++ r1)%string = (digits w n2 ++ r2)%string ->
  n1 mod 10 ^ Z.of_nat w = n2 mod 10 ^ Z.of_nat w /\ r1 = r2.
Proof.
  induction w as [| w IH]; cbn [digits]; rewrite ?append_cons, ?append_nil.
  - intros E. split; [| exact E]. cbn. rewrite !Z.mod_1_r. reflexivity.
  - intros E. injection E as Ed Er.
    apply digit_inj in Ed; try apply decimal_digit.
    destruct (IH Er) as [Hm Hr]. split; [| exact Hr].
    rewrite Nat2Z.inj_succ, Z.pow_succ_r by lia.
    rewrite (Z.mul_comm 10).
    rewrite !Z.rem_mul_r by lia. rewrite Hm, Ed. reflexivity.
Qed.

Lemma digits_app_inj_small (w : nat) (n1 n2 : Z) (r1 r2 : string) :
  0 <= n1 < 10 ^ Z.of_nat w -> 0 <= n2 < 10 ^ Z.of_nat w ->
  (digits w n1 ++ r1)%string = (digits w n2 ++ r2)%string ->
  n1 = n2 /\ r1 = r2.
Proof.
  intros H1 H2 E. destruct (digits_app_inj w n1 n2 r1 r2 E) as [Hm Hr].
  rewrite !Z.mod_small in Hm by assumption. tauto.
Qed.

Lemma split_head_digits (c : ascii) (w : nat) (n : Z) (r : string) :
  (N_of_ascii c < 48 \/ 57 < N_of_ascii c)%N ->
  split_head c (digits w n ++ r) = (digits w n ++ split_head c r)%string.
Proof.
  intros Hc. induction w as [| w IH]; cbn [digits];
    rewrite ?append_cons, ?append_nil; cbn [split_head].
  - reflexivity.
  - rewrite digit_not by (apply decimal_digit || exact Hc). rewrite IH.
    reflexivity.
Qed.

Lemma string_app_assoc (a b c : string) :
  ((a ++ b) ++ c)%string = (a ++ (b ++ c))%string.
Proof.
  induction a as [| x a IH]; [reflexivity |].
  rewrite !append_cons, IH. reflexivity.
Qed.

Lemma split_head_isoYear (y : Z) (r : string) :
  split_head "T" (isoYear y ++ r) = (isoYear y ++ split_head "T" r)%string.
Proof.
  unfold isoYear.
  destruct ((0 <=? y) && (y <=? 9999)); [| destruct (y <? 0)];
    rewrite ?append_cons, ?append_nil; cbn [split_head];
    try (replace (Ascii.eqb "-" "T") with false by reflexivity);
    try (replace (Ascii.eqb "+" "T") with false by reflexivity);
    rewrite split_head_digits by (right; reflexivity); reflexivity.
Qed.

(** The date part of an ISO string holds no "T": the split recovers it. *)
Lemma split_head_toISOString (t : Z) :
  split_head "T" (isoDate t ++ "T" ++ isoTime t ++ "Z") = isoDate t.
Proof.
  unfold isoDate. destruct (civil_from_days (utcDay t)) as [[y m] d].
  rewrite !string_app_assoc. rewrite split_head_isoYear.
  rewrite ?append_cons, ?append_nil; cbn [split_head].
  replace (Ascii.eqb "-" "T") with false by reflexivity.
  rewrite split_head_digits by (right; reflexivity).
  rewrite ?append_cons, ?append_nil; cbn [split_head].
  replace (Ascii.eqb "-" "T") with false by reflexivity.
  rewrite split_head_digits by (right; reflexivity).
  rewrite ?append_cons, ?append_nil; cbn [split_head].
  replace (Ascii.eqb "T" "T") with true by reflexivity.
  reflexivity.
Qed.

Lemma isoYear_app_inj (y1 y2 : Z) (r1 r2 : string) :
  -999999 <= y1 <= 999999 -> -999999 <= y2 <= 999999 ->
  (isoYear y1 ++ r1)%string = (isoYear y2 ++ r2)%string ->
  y1 = y2 /\ r1 = r2.
Proof.
  intros H1 H2. unfold isoYear.
  destruct ((0 <=? y1) && (y1 <=? 9999)) eqn:A1;
    destruct ((0 <=? y2) && (y2 <=? 9999)) eqn:A2;
    rewrite ?andb_true_iff, ?andb_false_iff, ?Z.leb_le, ?Z.leb_gt in A1, A2.
  - intros E. apply digits_app_inj_small in E; [exact E | cbn; lia | cbn; lia].
  - destruct (y2 <? 0); cbn [digits]; rewrite ?append_cons; intros E;
      injection E as Ec _; exfalso;
      pose proof (digit_range _ (decimal_digit y1 (10 ^ Z.of_nat 3))) as Hr;
      rewrite Ec in Hr; cbn in Hr; lia.
  - destruct (y1 <? 0); cbn [digits]; rewrite ?append_cons; intros E;
      injection E as Ec _; exfalso;
      pose proof (digit_range _ (decimal_digit y2 (10 ^ Z.of_nat 3))) as Hr;
      rewrite <- Ec in Hr; cbn in Hr; lia.
  - assert (Hpow : 10 ^ Z.of_nat 6 = 1000000) by reflexivity.
    destruct (y1 <? 0) eqn:L1; destruct (y2 <? 0) eqn:L2;
      rewrite ?Z.ltb_lt, ?Z.ltb_ge in L1, L2;
      rewrite !(append_cons _ (digits 6 _) _); intros E;
      try discriminate E;
      apply String_inj in E; destruct E as [_ E];
      (apply digits_app_inj_small in E; [| rewrite Hpow; lia | rewrite Hpow; lia]);
      destruct E as [Hy Hr]; (split; [lia | exact Hr]).
Qed.

(** Two valid time values with the same ISO date lie on the same UTC
    day. *)
Lemma isoDate_inj (t1 t2 : Z) :
  validTime t1 -> validTime t2 -> isoDate t1 = isoDate t2 ->
  utcDay t1 = utcDay t2.
Proof.
  intros V1 V2. unfold isoDate.
  pose proof (civil_of_valid_time t1) as B1.
  pose proof (civil_of_valid_time t2) as B2.
  pose proof (civil_from_days_inj (utcDay t1) (utcDay t2)) as Hinj.
  destruct (civil_from_days (utcDay t1)) as [[y1 m1] d1].
  destruct (civil_from_days (utcDay t2)) as [[y2 m2] d2].
  destruct (B1 y1 m1 d1 V1 eq_refl) as (Hy1 & Hm1 & Hd1).
  destruct (B2 y2 m2 d2 V2 eq_refl) as (Hy2 & Hm2 & Hd2).
  intros E. apply isoYear_app_inj in E; [| assumption | assumption].
  destruct E as [Hy E]. rewrite !(append_cons _ "" _), !append_nil in E.
  apply String_inj in E. destruct E as [_ E].
  apply digits_app_inj_small in E; [| cbn; lia | cbn; lia].
  destruct E as [Hm E]. apply String_inj in E. destruct E as [_ E].
  rewrite <- (append_nil_r (digits 2 d1)) in E.
  rewrite <- (append_nil_r (digits 2 d2)) in E.
  apply digits_app_inj_small in E; [| cbn; lia | cbn; lia].
  destruct E as [Hd _]. apply Hinj. congruence.
Qed.

(** * Properties of the forecast loop *)

Section ForecastLoop.

Context `{LocalTimeZone}.

Lemma newDate_valid (t : Z) : validTime t -> newDate t = Some t.
Proof.
  unfold validTime, newDate. intros Ht.
  apply Z.leb_le in Ht. rewrite Ht. reflexivity.
Qed.

Lemma dateKeyOf_valid (item : ForecastItem) :
  validTime (itemTime item) -> dateKeyOf item = Normal (isoDate (itemTime item)).
Proof.
  intros Ht. unfold dateKeyOf. fold (itemTime item).
  rewrite newDate_valid by exact Ht. simpl.
  rewrite split_head_toISOString. reflexivity.
Qed.

Lemma dateKeyOf_Normal (item : ForecastItem) (k : string) :
  dateKeyOf item = Normal k ->
  validTime (itemTime item) /\ k = isoDate (itemTime item).
Proof.
  intros Hk. assert (Ht : validTime (itemTime item)).
  { unfold dateKeyOf, newDate, validTime, itemTime in *.
    destruct (Z.abs (dt item * 1000) <=? maxTimeValue) eqn:L;
      [apply Z.leb_le; exact L | discriminate]. }
  split; [exact Ht |]. rewrite dateKeyOf_valid in Hk by exact Ht. congruence.
Qed.

Lemma noonDistance_valid (t : Z) :
  validTime t -> noonDistance (getHours (newDate t)) = Some (hourDistance t).
Proof.
  intros Ht. rewrite newDate_valid by exact Ht. reflexivity.
Qed.

Lemma forecastEntry_Normal (k : string) (item : ForecastItem) (e : DailyForecast) :
  forecastEntry k item = Normal e -> timestamp e = itemTime item /\ date e = k.
Proof.
  unfold forecastEntry. destruct (weather item); [discriminate |].
  intros [= <-]. split; reflexivity.
Qed.

Lemma forecastEntry_valid (k : string) (item : ForecastItem) :
  weather item <> [] -> exists e, forecastEntry k item = Normal e.
Proof.
  unfold forecastEntry. destruct (weather item); [congruence | eauto].
Qed.

(** The entry recorded for a date was built from an item of that date. *)
Lemma grouped_entry_time (items : list ForecastItem) (o : object DailyForecast)
    (k : string) (e : DailyForecast) :
  grouped items o -> obj_get o k = Some e ->
  validTime (timestamp e) /\ k = isoDate (timestamp e) /\ date e = k.
Proof.
  intros G He. destruct (grouped_from _ _ G k e He) as (item & _ & Hk & Hentry).
  apply forecastEntry_Normal in Hentry. destruct Hentry as [-> Hd].
  apply dateKeyOf_Normal in Hk. tauto.
Qed.

Lemma forecastStep_dateKey (o : object DailyForecast) (item : ForecastItem) :
  forecastStep o item =
  (let! dateKey := dateKeyOf item in
   if replaces o dateKey (getHours (newDate (dt item * 1000)))
   then let! entry := forecastEntry dateKey item in
        Normal (obj_set o dateKey entry)
   else Normal o).
Proof.
  unfold forecastStep, dateKeyOf.
  destruct (toISOString (newDate (dt item * 1000))); reflexivity.
Qed.

(** The callback, for an item whose date key is [k], once the test of its
    [if] is worked out. *)
Lemma forecastStep_eq (items : list ForecastItem) (o : object DailyForecast)
    (item : ForecastItem) (k : string) :
  grouped items o -> dateKeyOf item = Normal k ->
  forecastStep o item =
  match obj_get o k with
  | Some best =>
      if hourDistance (itemTime item) <? hourDistance (timestamp best)
      then let! entry := forecastEntry k item in Normal (obj_set o k entry)
      else Normal o
  | None => let! entry := forecastEntry k item in Normal (obj_set o k entry)
  end.
Proof.
  intros G Hk. rewrite forecastStep_dateKey. unfold replaces. rewrite Hk. simpl.
  destruct (dateKeyOf_Normal item k Hk) as [Ht _].
  destruct (obj_get o k) as [best |] eqn:Hbest; [| reflexivity].
  destruct (grouped_entry_time items o k best G Hbest) as [Hbt _].
  fold (itemTime item). rewrite !noonDistance_valid by assumption.
  reflexivity.
Qed.

Lemma grouped_nil : grouped [] [].
Proof.
  split.
  - intros k e. discriminate.
  - intros item k [].
Qed.

Lemma forecastStep_grouped (items : list ForecastItem) (o o' : object DailyForecast)
    (item : ForecastItem) :
  grouped items o -> forecastStep o item = Normal o' ->
  grouped (items ++ [item]) o'.
Proof.
  intros G Hstep.
  destruct (dateKeyOf item) as [k |] eqn:Hk;
    [| rewrite forecastStep_dateKey, Hk in Hstep; discriminate].
  rewrite (forecastStep_eq items o item k G Hk) in Hstep.
  assert (Hkeep : o' = o ->
            (exists best, obj_get o k = Some best /\
               hourDistance (timestamp best) <= hourDistance (itemTime item)) ->
            grouped (items ++ [item]) o').
  { intros -> (best & Hbest & Hle). split.
    - intros k0 e He. destruct (grouped_from _ _ G k0 e He) as (it & Hin & Hit).
      exists it. split; [apply in_or_app; left; exact Hin | exact Hit].
    - intros it k0 Hin Hk0. apply in_app_or in Hin.
      destruct Hin as [Hin | [<- | []]].
      + exact (grouped_closest _ _ G it k0 Hin Hk0).
      + assert (k0 = k) by congruence. subst k0. eauto. }
  assert (Hput : forall e, forecastEntry k item = Normal e ->
            o' = obj_set o k e ->
            (forall best, obj_get o k = Some best ->
               hourDistance (itemTime item) < hourDistance (timestamp best)) ->
            grouped (items ++ [item]) o').
  { intros e He -> Hlt.
    destruct (forecastEntry_Normal k item e He) as [Hts _]. split.
    - intros k0 e0. rewrite obj_get_set.
      destruct (String.eqb_spec k k0) as [<- | Hne].
      + intros [= <-]. exists item.
        split; [apply in_or_app; right; left; reflexivity | tauto].
      + intros He0.
        destruct (grouped_from _ _ G k0 e0 He0) as (it & Hin & Hit).
        exists it. split; [apply in_or_app; left; exact Hin | exact Hit].
    - intros it k0 Hin Hk0. rewrite obj_get_set.
      apply in_app_or in Hin. destruct Hin as [Hin | [<- | []]].
      + destruct (grouped_closest _ _ G it k0 Hin Hk0) as (e0 & He0 & Hle).
        destruct (String.eqb_spec k k0) as [<- | Hne]; [| eauto].
        exists e. split; [reflexivity |]. rewrite Hts.
        specialize (Hlt e0 He0). lia.
      + assert (k0 = k) by congruence. subst k0. rewrite String.eqb_refl.
        exists e. split; [reflexivity |]. rewrite Hts. lia. }
  destruct (obj_get o k) as [best |] eqn:Hbest.
  - destruct (hourDistance (itemTime item) <? hourDistance (timestamp best))
      eqn:L.
    + destruct (forecastEntry k item) as [e |] eqn:He; [| discriminate].
      injection Hstep as <-. apply (Hput e); [reflexivity | reflexivity |].
      intros best' [= <-]. apply Z.ltb_lt. exact L.
    + injection Hstep as <-. apply Hkeep; [reflexivity |].
      exists best. split; [reflexivity |]. apply Z.ltb_ge. exact L.
  - destruct (forecastEntry k item) as [e |] eqn:He; [| discriminate].
    injection Hstep as <-. apply (Hput e); [reflexivity | reflexivity |].
    intros best' [=].
Qed.

Lemma forEach_grouped (rest items : list ForecastItem)
    (o o' : object DailyForecast) :
  grouped items o -> forEach forecastStep rest o = Normal o' ->
  grouped (items ++ rest) o'.
Proof.
  revert items o. induction rest as [| item rest IH]; intros items o G; simpl.
  - intros [= <-]. rewrite app_nil_r. exact G.
  - destruct (forecastStep o item) as [o1 |] eqn:Hstep; [| discriminate].
    simpl. intros Hrest.
    replace (items ++ item :: rest) with ((items ++ [item]) ++ rest)
      by (rewrite <- app_assoc; reflexivity).
    apply (IH _ o1); [| exact Hrest].
    exact (forecastStep_grouped items o o1 item G Hstep).
Qed.

Lemma groupByDay_grouped (items : list ForecastItem) (o : object DailyForecast) :
  groupByDay items = Normal o -> grouped items o.
Proof.
  intros Hg. apply (forEach_grouped items [] [] o grouped_nil Hg).
Qed.

(** The callback never throws on a valid item, and it leaves the keys as
    an assignment to the item's date key would. *)
Lemma forecastStep_valid (items : list ForecastItem) (o : object DailyForecast)
    (item : ForecastItem) :
  grouped items o -> valid_item item ->
  exists o', forecastStep o item = Normal o' /\
             obj_keys o' = add_key (obj_keys o) (isoDate (itemTime item)).
Proof.
  intros G [Ht Hw].
  rewrite (forecastStep_eq items o item _ G (dateKeyOf_valid item Ht)).
  destruct (forecastEntry_valid (isoDate (itemTime item)) item Hw) as [e He].
  rewrite He. simpl.
  assert (Hin : forall best, obj_get o (isoDate (itemTime item)) = Some best ->
                  obj_keys o = add_key (obj_keys o) (isoDate (itemTime item))).
  { intros best Hbest. unfold add_key. rewrite obj_get_keys, Hbest. reflexivity. }
  destruct (obj_get o (isoDate (itemTime item))) as [best |] eqn:Hbest.
  - destruct (_ <? _).
    + eexists. split; [reflexivity | apply obj_keys_set].
    + eexists. split; [reflexivity | exact (Hin best eq_refl)].
  - eexists. split; [reflexivity | apply obj_keys_set].
Qed.

Lemma forEach_valid (rest items : list ForecastItem) (o : object DailyForecast) :
  grouped items o -> Forall valid_item rest ->
  exists o', forEach forecastStep rest o = Normal o' /\
             obj_keys o' =
               fold_left add_key (map (fun item => isoDate (itemTime item)) rest)
                         (obj_keys o).
Proof.
  intros G Hrest. revert items o G.
  induction Hrest as [| item rest Hitem _ IH]; intros items o G; simpl.
  - eauto.
  - destruct (forecastStep_valid items o item G Hitem) as (o1 & Hstep & Hkeys).
    rewrite Hstep. simpl. rewrite <- Hkeys.
    apply (IH (items ++ [item])).
    exact (forecastStep_grouped items o o1 item G Hstep).
Qed.

End ForecastLoop.

(** ** The order of the date keys *)

Lemma filter_filter {A : Type} (f g : A -> bool) (l : list A) :
  List.filter f (List.filter g l) = List.filter (fun x => g x && f x) l.
Proof.
  induction l as [| x l IH]; simpl; [reflexivity |].
  destruct (g x); simpl; [destruct (f x) |]; rewrite IH; reflexivity.
Qed.

Lemma filter_ext_all {A : Type} (f g : A -> bool) (l : list A) :
  (forall x, f x = g x) -> List.filter f l = List.filter g l.
Proof.
  intros Hfg. induction l as [| x l IH]; simpl; [reflexivity |].
  rewrite Hfg, IH. reflexivity.
Qed.

Lemma filter_all {A : Type} (l : list A) : List.filter (fun _ => true) l = l.
Proof.
  induction l as [| x l IH]; simpl; [reflexivity |]. rewrite IH. reflexivity.
Qed.

(** Assigning the keys of [ks] one after the other appends, to the keys
    already there, the new ones in the order of their first occurrence. *)
Lemma fold_add_key (ks acc : list string) :
  fold_left add_key ks acc =
  acc ++ List.filter (fun k => negb (existsb (String.eqb k) acc))
                     (first_occurrences ks).
Proof.
  revert acc. induction ks as [| k rest IH]; intros acc; simpl.
  - rewrite app_nil_r. reflexivity.
  - rewrite IH. unfold add_key.
    destruct (existsb (String.eqb k) acc) eqn:Hk; simpl.
    + f_equal. rewrite filter_filter. apply filter_ext_all. intros x.
      destruct (String.eqb_spec k x) as [<- | _]; simpl; [| reflexivity].
      rewrite Hk. reflexivity.
    + rewrite <- app_assoc. simpl. do 2 f_equal.
      rewrite filter_filter. apply filter_ext_all. intros x.
      rewrite existsb_app. simpl. rewrite orb_false_r, (String.eqb_sym x k).
      destruct (String.eqb k x), (existsb (String.eqb x) acc); reflexivity.
Qed.

Lemma first_occurrences_NoDup (ks : list string) : NoDup (first_occurrences ks).
Proof.
  induction ks as [| k rest IH]; simpl; constructor.
  - rewrite list_elem_of_In, List.filter_In. intros [_ Hk].
    rewrite String.eqb_refl in Hk. discriminate.
  - apply NoDup_ListNoDup, List.NoDup_filter, NoDup_ListNoDup. exact IH.
Qed.

Lemma obj_get_NoDup {A : Type} (o : object A) (k : string) (v : A) :
  NoDup (obj_keys o) -> In (k, v) o -> obj_get o k = Some v.
Proof.
  induction o as [| [k0 v0] rest IH]; simpl; [tauto |].
  intros Hnd. apply NoDup_cons in Hnd. destruct Hnd as [Hk0 Hnd].
  intros [[= -> ->] | Hin].
  - rewrite String.eqb_refl. reflexivity.
  - destruct (String.eqb_spec k0 k) as [-> | _]; [| auto].
    exfalso. apply Hk0. apply list_elem_of_In.
    apply (in_map fst) in Hin. exact Hin.
Qed.

Lemma take_NoDup {A : Type} (n : nat) (l : list A) : NoDup l -> NoDup (take n l).
Proof.
  intros Hnd. revert n. induction Hnd as [| x l Hx _ IH]; intros [| n]; simpl;
    try constructor; [| apply IH].
  intros Hin. apply Hx. exact (subseteq_take n l x Hin).
Qed.

(** ** Ascending days *)

Lemma take_StronglySorted {A : Type} (R : A -> A -> Prop) (n : nat) (l : list A) :
  StronglySorted R l -> StronglySorted R (take n l).
Proof.
  intros Hs. revert n. induction Hs as [| x l _ IH Hx]; intros [| n]; simpl;
    try constructor; [apply IH |].
  apply Forall_forall. intros y Hy. rewrite Forall_forall in Hx. apply Hx.
  exact (subseteq_take n l y Hy).
Qed.

Lemma map_StronglySorted {A B : Type} (R : B -> B -> Prop) (f : A -> B)
    (l : list A) :
  StronglySorted (fun x y => R (f x) (f y)) l -> StronglySorted R (map f l).
Proof.
  induction 1 as [| x l _ IH Hx]; simpl; constructor; [exact IH |].
  apply Forall_forall. intros y Hy. apply list_elem_of_In, in_map_iff in Hy.
  destruct Hy as (z & <- & Hz). rewrite Forall_forall in Hx. apply Hx.
  apply list_elem_of_In. exact Hz.
Qed.

Lemma utcDay_le (t1 t2 : Z) : t1 <= t2 -> utcDay t1 <= utcDay t2.
Proof. intros Hle. apply Z.div_le_mono; [reflexivity | exact Hle]. Qed.

Lemma isoDate_same_day (t1 t2 : Z) : utcDay t1 = utcDay t2 -> isoDate t1 = isoDate t2.
Proof. unfold isoDate. intros ->. reflexivity. Qed.

Lemma obj_set_elements {A : Type} (o : object A) (k : string) (v : A)
    (P : string * A -> Prop) :
  Forall P o -> P (k, v) -> Forall P (obj_set o k v).
Proof.
  intros Ho Hv. induction Ho as [| [k0 v0] rest H0 Hrest IH]; simpl.
  - constructor; [exact Hv | constructor].
  - destruct (String.eqb_spec k0 k) as [-> | _]; constructor; auto.
Qed.

Lemma ascending_until_le (t t' : Z) (o : object DailyForecast) :
  t <= t' -> ascending_until t o -> ascending_until t' o.
Proof.
  intros Hle [Hs Hk]. split; [exact Hs |].
  eapply Forall_impl; [exact Hk |].
  intros p (Hp1 & Hp2 & Hp3). repeat split; [exact Hp1 | exact Hp2 | lia].
Qed.

(** Recording an entry for a time that is not before the times recorded
    so far keeps the days in ascending order. *)
Lemma obj_set_ascending (t t' : Z) (o : object DailyForecast)
    (e : DailyForecast) :
  ascending_until t o -> t <= t' -> validTime t' -> timestamp e = t' ->
  ascending_until t' (obj_set o (isoDate t') e).
Proof.
  intros [Hs Hk] Hle Hv He. revert Hk.
  induction Hs as [| [k0 e0] rest Hrest IH Hfirst]; intros Hk; simpl.
  - split; repeat constructor; simpl; rewrite He; auto; lia.
  - apply Forall_cons in Hk. destruct Hk as [(Hk0 & Hv0 & Ht0) Hk].
    simpl in Hk0, Hv0, Ht0. specialize (IH Hk). destruct IH as [IHs IHk].
    destruct (String.eqb_spec k0 (isoDate t')) as [Heq | Hne].
    + assert (Hday : utcDay (timestamp e0) = utcDay (timestamp e)).
      { rewrite He. apply isoDate_inj; [exact Hv0 | exact Hv | congruence]. }
      split.
      * constructor; [exact Hrest |].
        eapply Forall_impl; [exact Hfirst |]. intros p Hp.
        unfold earlier_day in *. simpl in *. lia.
      * constructor; [simpl; rewrite He; repeat split; [exact Heq | exact Hv | lia] |].
        eapply Forall_impl; [exact Hk |].
        intros p (Hp1 & Hp2 & Hp3). repeat split; [exact Hp1 | exact Hp2 | lia].
    + split.
      * constructor; [exact IHs |]. apply obj_set_elements; [exact Hfirst |].
        unfold earlier_day. simpl. rewrite He.
        assert (utcDay (timestamp e0) <= utcDay t') by (apply utcDay_le; lia).
        assert (utcDay (timestamp e0) <> utcDay t').
        { intros Hsame. apply Hne. rewrite Hk0. apply isoDate_same_day.
          exact Hsame. }
        lia.
      * constructor; [simpl; repeat split; [exact Hk0 | exact Hv0 | lia] |].
        exact IHk.
Qed.

Section ForecastOrder.

Context `{LocalTimeZone}.

Lemma forecastStep_ascending (items : list ForecastItem) (t : Z)
    (o o' : object DailyForecast) (item : ForecastItem) :
  grouped items o -> ascending_until t o -> t <= itemTime item ->
  forecastStep o item = Normal o' ->
  ascending_until (itemTime item) o'.
Proof.
  intros G Ha Hle Hstep.
  destruct (dateKeyOf item) as [k |] eqn:Hk;
    [| rewrite forecastStep_dateKey, Hk in Hstep; discriminate].
  rewrite (forecastStep_eq items o item k G Hk) in Hstep.
  destruct (dateKeyOf_Normal item k Hk) as [Hv ->].
  assert (Hput : forall e, timestamp e = itemTime item ->
            ascending_until (itemTime item) (obj_set o (isoDate (itemTime item)) e)).
  { intros e He. exact (obj_set_ascending t _ o e Ha Hle Hv He). }
  destruct (obj_get o (isoDate (itemTime item))) as [best |].
  - destruct (_ <? _).
    + destruct (forecastEntry (isoDate (itemTime item)) item) as [e |] eqn:He;
        [| discriminate].
      injection Hstep as <-. apply Hput.
      apply (forecastEntry_Normal _ _ _ He).
    + injection Hstep as <-. exact (ascending_until_le t _ o Hle Ha).
  - destruct (forecastEntry (isoDate (itemTime item)) item) as [e |] eqn:He;
      [| discriminate].
    injection Hstep as <-. apply Hput.
    apply (forecastEntry_Normal _ _ _ He).
Qed.

Lemma forEach_ascending (rest items : list ForecastItem) (t : Z)
    (o o' : object DailyForecast) :
  grouped items o -> ascending_until t o ->
  StronglySorted Z.le (map dt rest) ->
  Forall (fun item => t <= itemTime item) rest ->
  forEach forecastStep rest o = Normal o' ->
  exists t', ascending_until t' o'.
Proof.
  revert items t o. induction rest as [| item rest IH]; intros items t o G Ha Hs Ht;
    simpl.
  - intros [= <-]. eauto.
  - destruct (forecastStep o item) as [o1 |] eqn:Hstep; [| discriminate].
    simpl. apply Forall_cons in Ht. destruct Ht as [Hitem Ht].
    simpl in Hs. apply StronglySorted_inv in Hs. destruct Hs as [Hs Hfirst].
    apply (IH (items ++ [item]) (itemTime item)).
    + exact (forecastStep_grouped items o o1 item G Hstep).
    + exact (forecastStep_ascending items t o o1 item G Ha Hitem Hstep).
    + exact Hs.
    + apply Forall_forall. intros it Hit. unfold itemTime.
      rewrite Forall_forall in Hfirst. specialize (Hfirst (dt it)).
      assert (dt item <= dt it); [| lia].
      apply Hfirst. apply list_elem_of_In, in_map, list_elem_of_In. exact Hit.
Qed.

End ForecastOrder.

(** ** What [formatForecast] returns *)

Lemma dates_are_keys (o : object DailyForecast) :
  Forall (fun p => date (snd p) = fst p) o ->
  map date (Object_values o) = obj_keys o.
Proof.
  unfold Object_values, obj_keys.
  induction 1 as [| p o Hp _ IH]; simpl; [reflexivity |].
  rewrite Hp, IH. reflexivity.
Qed.

Section ForecastResult.

Context `{LocalTimeZone}.

(** On valid items the loop returns normally, with the date keys in the
    order of their first occurrence. *)
Lemma groupByDay_valid (items : list ForecastItem) :
  Forall valid_item items ->
  exists o, groupByDay items = Normal o /\
            grouped items o /\
            obj_keys o =
              first_occurrences (map (fun item => isoDate (itemTime item)) items) /\
            Forall (fun p => obj_get o (fst p) = Some (snd p)) o.
Proof.
  intros Hvalid.
  destruct (forEach_valid items [] [] grouped_nil Hvalid) as (o & Hg & Hkeys).
  exists o. split; [exact Hg |].
  rewrite fold_add_key in Hkeys. simpl in Hkeys. rewrite filter_all in Hkeys.
  split; [exact (groupByDay_grouped items o Hg) |]. split; [exact Hkeys |].
  apply Forall_forall. intros [k e] Hin. apply obj_get_NoDup.
  - rewrite Hkeys. apply first_occurrences_NoDup.
  - apply list_elem_of_In. exact Hin.
Qed.


(** A sample that ties with an earlier sample of its date changes
    nothing. *)
Lemma forecastStep_tie (items : list ForecastItem) (o : object DailyForecast)
    (a b : ForecastItem) (k : string) :
  grouped items o -> In a items ->
  dateKeyOf a = Normal k -> dateKeyOf b = Normal k ->
  hourDistance (itemTime b) >= hourDistance (itemTime a) ->
  forecastStep o b = Normal o.
Proof.
  intros G Hin Ha Hb Hge.
  rewrite (forecastStep_eq items o b k G Hb).
  destruct (grouped_closest _ _ G a k Hin Ha) as (e & -> & Hle).
  replace (_ <? _) with false; [reflexivity |].
  symmetry. apply Z.ltb_ge. lia.
Qed.

End ForecastResult.

(** C1, as the code has it: on items with valid times and a weather
    condition each, [formatForecast] returns at most 5 entries with
    distinct date keys, in the order in which the date keys first occur in
    the input; when the input is in ascending order of time, that is the
    ascending order of the dates. *)
Theorem formatForecast_days `{LocalTimeZone} (data : ForecastData) :
  Forall valid_item (data_list data) ->
  exists out,
    formatForecast data = Normal out /\
    (length out <= 5)%nat /\
    NoDup (map date out) /\
    map date out =
      take 5 (first_occurrences
                (map (fun item => isoDate (itemTime item)) (data_list data))) /\
    (StronglySorted Z.le (map dt (data_list data)) ->
       StronglySorted earlier_day out /\
       Forall (fun e => date e = isoDate (timestamp e)) out).
Proof.
  intros Hvalid. unfold formatForecast.
  destruct (groupByDay_valid _ Hvalid) as (o & Hg & G & Hkeys & Hown).
  rewrite Hg. simpl. eexists. split; [reflexivity |].
  assert (Hdates : map date (Object_values o) = obj_keys o).
  { apply dates_are_keys. eapply Forall_impl; [exact Hown |].
    intros [k e] He. simpl in *.
    destruct (grouped_entry_time _ _ k e G He) as (_ & _ & Hd). exact Hd. }
  split; [apply firstn_le_length |].
  rewrite <- firstn_map, Hdates, Hkeys.
  split; [apply take_NoDup, first_occurrences_NoDup |].
  split; [reflexivity |].
  intros Hsorted. split.
  - assert (Hfrom : Forall (fun item => - maxTimeValue <= itemTime item)
                      (data_list data)).
    { eapply Forall_impl; [exact Hvalid |]. intros item [Hv _].
      unfold validTime in Hv. lia. }
    destruct (forEach_ascending (data_list data) [] (- maxTimeValue) [] o
                grouped_nil) as [t' [Hs _]];
      [split; constructor | exact Hsorted | exact Hfrom | exact Hg |].
    apply take_StronglySorted. unfold Object_values.
    apply map_StronglySorted. exact Hs.
  - apply Forall_forall. intros e He. apply subseteq_take in He.
    unfold Object_values in He. apply list_elem_of_In, in_map_iff in He.
    destruct He as ([k e'] & <- & Hin). rewrite Forall_forall in Hown.
    apply list_elem_of_In in Hin. specialize (Hown _ Hin). simpl in *.
    destruct (grouped_entry_time _ _ k e' G Hown) as (_ & Hk & Hd). congruence.
Qed.

Lemma formatForecast_days_witness :
  exists out,
    @formatForecast UTC three_days = Normal out /\
    (length out <= 5)%nat /\
    NoDup (map date out) /\
    map date out = ["1970-01-01"; "1970-01-02"; "1970-01-03"] /\
    StronglySorted earlier_day out.
Proof.
  destruct (@formatForecast_days UTC three_days)
    as (out & Hout & Hlen & Hnodup & Hdates & Hsorted).
  - repeat constructor; unfold validTime; simpl; (lia || discriminate).
  - exists out. repeat (split; [assumption |]).
    apply Hsorted. simpl. repeat constructor; lia.
Defined.

(** C1 as the specification states it fails on an input that is not in
    ascending order of time: the entries come in the order of the input,
    here the later date first. *)
Lemma formatForecast_input_order_counterexample :
  @formatForecast UTC later_day_first =
    Normal [ sample_entry "1970-01-02" 129600 14;
             sample_entry "1970-01-01" 43200 11 ] /\
  String.compare "1970-01-02" "1970-01-01" = Gt /\
  ~ earlier_day (sample_entry "1970-01-02" 129600 14)
                (sample_entry "1970-01-01" 43200 11).
Proof.
  split; [reflexivity |]. split; [reflexivity |].
  unfold earlier_day. cbv. discriminate.
Qed.





(** * Properties of the preference store *)

Section StoreBoundary.

Variables (key : string) (st : LocalStorage).

Lemma getFromStorage_eq : getFromStorage key st = (Normal (stored key st), st).
Proof.
  unfold getFromStorage, try_catch, bind, localStorage_getItem, stored, lift, ret.
  destruct (available st); [| reflexivity].
  destruct (items st !! key) as [[j | |] |]; reflexivity.
Qed.

Lemma saveToStorage_eq (value : jsvalue) :
  saveToStorage key value st =
  match value with
  | Data j =>
      if writable key j st then (Normal true, written key j st)
      else (Normal false, st)
  | Unserializable => (Normal false, st)
  end.
Proof.
  unfold saveToStorage, try_catch, bind, lift, localStorage_setItem, ret,
    writable, written.
  destruct value as [j |]; simpl; [| reflexivity].
  destruct (available st); simpl; [| reflexivity].
  destruct (within_quota st _); reflexivity.
Qed.

End StoreBoundary.

Lemma getFavoriteCities_eq (st : LocalStorage) :
  getFavoriteCities st = (Normal (favorites_read st), st).
Proof.
  unfold getFavoriteCities, bind, ret, favorites_read.
  rewrite getFromStorage_eq. reflexivity.
Qed.

Lemma stored_written_same (key : string) (j : json) (st : LocalStorage) :
  available st = true -> stored key (written key j st) = j.
Proof.
  intros Ha. unfold stored, written, with_items. simpl. rewrite Ha.
  rewrite lookup_insert_eq. reflexivity.
Qed.

(** A favorites list that was read from an accessible store as a non-empty
    value is the stored one; otherwise the list read is empty. *)
Lemma favorites_read_array (st : LocalStorage) (favs : list json) :
  favorites_read st = JArr favs ->
  favs = [] \/ (available st = true /\ stored_favorites st = favs).
Proof.
  unfold favorites_read, stored, stored_favorites.
  destruct (available st); simpl.
  - destruct (items st !! FAVORITE_CITIES) as [[j | |] |]; simpl;
      try (intros [= <-]; left; reflexivity).
    destruct (truthy j) eqn:Ht.
    + intros ->. right. split; reflexivity.
    + intros [= <-]. left. reflexivity.
  - intros [= <-]. left. reflexivity.
Qed.

Lemma favorites_read_empty (st : LocalStorage) :
  favorites_read st = JArr [] -> stored_favorites st = [] \/ available st = false.
Proof.
  unfold favorites_read, stored, stored_favorites.
  destruct (available st); simpl; [| right; reflexivity].
  destruct (items st !! FAVORITE_CITIES) as [[j | |] |]; simpl;
    try (left; reflexivity).
  destruct j; simpl; try (left; reflexivity).
  destruct elems; [left; reflexivity | discriminate].
Qed.

Lemma favorites_read_stored (st : LocalStorage) (favs : list json) :
  available st = true ->
  items st !! FAVORITE_CITIES = Some (JSONText (JArr favs)) ->
  favorites_read st = JArr favs.
Proof.
  intros Ha Hi. unfold favorites_read, stored. rewrite Ha, Hi. reflexivity.
Qed.

(** ** [some] and [filter] with a callback that may throw *)

Lemma some_of_false (f : json -> completion bool) (xs : list json) :
  some_of f xs = Normal false -> Forall (fun x => f x = Normal false) xs.
Proof.
  induction xs as [| x rest IH]; simpl; intros Hs; [constructor |].
  destruct (f x) as [[|] |] eqn:Hx; simpl in Hs; try discriminate.
  constructor; auto.
Qed.

Lemma some_of_found (f : json -> completion bool) (xs : list json) (x : json) :
  In x xs -> f x = Normal true -> some_of f xs <> Normal false.
Proof.
  intros Hin Hx Hs. apply some_of_false in Hs.
  rewrite Forall_forall in Hs. specialize (Hs x).
  rewrite list_elem_of_In in Hs. specialize (Hs Hin). congruence.
Qed.


(** ** [addFavoriteCity] and [removeFavoriteCity], case by case *)

Lemma addFavoriteCity_eq `{CaseMapping} (cityData : object json) (now : Z) (st : LocalStorage) :
  addFavoriteCity cityData now st =
  match favorites_read st with
  | JArr favs =>
      match some_of (same_name_as cityData) favs with
      | Normal false =>
          let fav := JObj (obj_set cityData "addedAt" (JNum now)) in
          if writable FAVORITE_CITIES (JArr (favs ++ [fav])) st
          then (Normal true, written FAVORITE_CITIES (JArr (favs ++ [fav])) st)
          else (Normal false, st)
      | _ => (Normal false, st)
      end
  | _ => (Normal false, st)
  end.
Proof.
  unfold addFavoriteCity, try_catch, bind. rewrite getFavoriteCities_eq.
  unfold lift, Array_some, Array_push, ret.
  fold (same_name_as cityData).
  destruct (favorites_read st) as [| b | n | s | favs | props]; try reflexivity.
  destruct (some_of (same_name_as cityData) favs) as [[|] |]; try reflexivity.
  rewrite saveToStorage_eq.
  destruct (writable _ _ st); reflexivity.
Qed.

Lemma removeFavoriteCity_eq `{CaseMapping} (cityName : string) (st : LocalStorage) :
  removeFavoriteCity cityName st =
  match favorites_read st with
  | JArr favs =>
      match filter_of (other_name_than cityName) favs with
      | Normal filtered =>
          if writable FAVORITE_CITIES (JArr filtered) st
          then (Normal true, written FAVORITE_CITIES (JArr filtered) st)
          else (Normal false, st)
      | Throw _ => (Normal false, st)
      end
  | _ => (Normal false, st)
  end.
Proof.
  unfold removeFavoriteCity, try_catch, bind. rewrite getFavoriteCities_eq.
  unfold lift, Array_filter, ret.
  fold (other_name_than cityName).
  destruct (favorites_read st) as [| b | n | s | favs | props]; try reflexivity.
  destruct (filter_of (other_name_than cityName) favs) as [filtered |];
    simpl; [| reflexivity].
  rewrite saveToStorage_eq.
  destruct (writable _ _ st); reflexivity.
Qed.

(** ** Names of favorites *)

Lemma name_of_new_favorite `{CaseMapping} (cityData : object json) (now : Z) :
  name_toLowerCase (JObj (obj_set cityData "addedAt" (JNum now))) =
  name_toLowerCase (JObj cityData).
Proof.
  unfold name_toLowerCase. rewrite obj_get_set_ne; [reflexivity | discriminate].
Qed.

Lemma lower_names_app `{CaseMapping} (xs ys : list json) :
  lower_names (xs ++ ys) = lower_names xs ++ lower_names ys.
Proof.
  induction xs as [| x rest IH]; simpl; [reflexivity |].
  destruct (name_toLowerCase x); simpl; rewrite IH; reflexivity.
Qed.



Lemma stored_favorites_written (favs : list json) (st : LocalStorage) :
  stored_favorites (written FAVORITE_CITIES (JArr favs) st) = favs.
Proof.
  unfold stored_favorites, written, with_items. simpl.
  rewrite lookup_insert_eq. reflexivity.
Qed.



(** A city that goes by the name of a stored favorite is turned down and
    nothing is written. *)
Lemma duplicate_rejected `{CaseMapping} (cityData : object json) (now : Z) (st : LocalStorage)
    (favs : list json) (fav : json) (n : string) :
  items st !! FAVORITE_CITIES = Some (JSONText (JArr favs)) ->
  In fav favs ->
  name_toLowerCase fav = Normal n ->
  name_toLowerCase (JObj cityData) = Normal n ->
  addFavoriteCity cityData now st = (Normal false, st).
Proof.
  intros Hi Hin Hfav Hcity. rewrite addFavoriteCity_eq.
  destruct (available st) eqn:Ha.
  - rewrite (favorites_read_stored st favs Ha Hi).
    assert (Hfound : same_name_as cityData fav = Normal true).
    { unfold same_name_as. rewrite Hfav, Hcity. simpl.
      rewrite String.eqb_refl. reflexivity. }
    pose proof (some_of_found _ _ _ Hin Hfound) as Hne.
    destruct (some_of (same_name_as cityData) favs) as [[|] |];
      [reflexivity | congruence | reflexivity].
  - unfold favorites_read, stored, writable. rewrite Ha. reflexivity.
Qed.



(** C8: the store boundary swallows every error.  [saveToStorage] always
    returns normally, and returns [false] without writing when
    [JSON.stringify] or [localStorage.setItem] throws; [getFromStorage]
    always returns normally and leaves the store as it was, and returns
    [null] when [localStorage.getItem] or [JSON.parse] throws. *)
Theorem store_boundary_swallows_errors (key : string) (value : jsvalue)
    (st : LocalStorage) :
  (exists ok st', saveToStorage key value st = (Normal ok, st')) /\
  (forall e, JSON_stringify value = Throw e ->
     saveToStorage key value st = (Normal false, st)) /\
  (forall t e st', JSON_stringify value = Normal t ->
     localStorage_setItem key t st = (Throw e, st') ->
     saveToStorage key value st = (Normal false, st)) /\
  (exists j, getFromStorage key st = (Normal j, st)) /\
  (forall e st', localStorage_getItem key st = (Throw e, st') ->
     getFromStorage key st = (Normal JNull, st)) /\
  (forall t e, localStorage_getItem key st = (Normal (Some t), st) ->
     JSON_parse t = Throw e ->
     getFromStorage key st = (Normal JNull, st)).
Proof.
  rewrite saveToStorage_eq, getFromStorage_eq.
  split; [| split; [| split; [| split; [| split]]]].
  - destruct value as [j |]; [destruct (writable key j st) |]; eauto.
  - intros e. destruct value; [discriminate | reflexivity].
  - intros t e st'. destruct value as [j |]; [| discriminate].
    intros [= <-]. unfold localStorage_setItem, writable.
    destruct (available st); simpl; [| reflexivity].
    destruct (within_quota st _); [discriminate | reflexivity].
  - eauto.
  - intros e st'. unfold localStorage_getItem, stored.
    destruct (available st); [discriminate | reflexivity].
  - intros t e. unfold localStorage_getItem, stored.
    destruct (available st); [| discriminate].
    intros [= ->]. destruct t; [discriminate | reflexivity | reflexivity].
Qed.

Lemma store_boundary_swallows_errors_witness :
  saveToStorage THEME Unserializable empty_storage = (Normal false, empty_storage) /\
  saveToStorage THEME (Data (JStr "dark")) full_storage = (Normal false, full_storage) /\
  getFromStorage THEME blocked_storage = (Normal JNull, blocked_storage) /\
  getFromStorage FAVORITE_CITIES garbled_storage = (Normal JNull, garbled_storage).
Proof.
  split; [| split; [| split]].
  - apply (proj1 (proj2 (store_boundary_swallows_errors
             THEME Unserializable empty_storage)) TypeError).
    reflexivity.
  - apply (proj1 (proj2 (proj2 (store_boundary_swallows_errors
             THEME (Data (JStr "dark")) full_storage)))
             (JSONText (JStr "dark")) QuotaExceededError full_storage);
      reflexivity.
  - apply (proj1 (proj2 (proj2 (proj2 (proj2 (store_boundary_swallows_errors
             THEME Unserializable blocked_storage)))))
             SecurityError blocked_storage).
    reflexivity.
  - apply (proj2 (proj2 (proj2 (proj2 (proj2 (store_boundary_swallows_errors
             FAVORITE_CITIES Unserializable garbled_storage)))))
             MalformedText SyntaxError);
      reflexivity.
Defined.

(** C9: a city whose name equals, up to case, the name of a stored
    favorite is turned down: [addFavoriteCity] returns [false] and the
    storage area is left as it was. *)
Theorem addFavoriteCity_rejects_existing_name `{CaseMapping} (cityData : object json) (now : Z)
    (st : LocalStorage) (favs : list json) (fav : json) (n : string) :
  items st !! FAVORITE_CITIES = Some (JSONText (JArr favs)) ->
  In fav favs ->
  name_toLowerCase fav = Normal n ->
  name_toLowerCase (JObj cityData) = Normal n ->
  addFavoriteCity cityData now st = (Normal false, st).
Proof. exact (duplicate_rejected cityData now st favs fav n). Qed.

Lemma addFavoriteCity_rejects_existing_name_witness :
  @addFavoriteCity Latin (city "paris") 2000 paris_saved
    = (Normal false, paris_saved).
Proof.
  apply (@addFavoriteCity_rejects_existing_name Latin (city "paris") 2000
           paris_saved
           [JObj (obj_set (city "Paris") "addedAt" (JNum 1000))]
           (JObj (obj_set (city "Paris") "addedAt" (JNum 1000))) "paris").
  - reflexivity.
  - left. reflexivity.
  - reflexivity.
  - reflexivity.
Defined.





(** ** The refresh clock *)

Lemma needsRefresh_eq `{StringConversions} (minutes now : Z) (st : LocalStorage) :
  needsRefresh minutes now st =
  (Normal (if truthy (stored LAST_UPDATE st)
           then double_gt
                  (double_sub (Integer now) (ToNumber (stored LAST_UPDATE st)))
                  (double_mul (double_mul (Integer minutes) (Integer 60))
                              (Integer 1000))
           else true), st).
Proof.
  unfold needsRefresh, getLastUpdate, bind. rewrite getFromStorage_eq.
  destruct (truthy (stored LAST_UPDATE st)); reflexivity.
Qed.





(** Beyond the safe integers the subtraction rounds: with a stored
    timestamp of 54 bits, a time elapsed that exceeds the threshold by one
    millisecond is rounded down to the threshold, and is not stale. *)
Lemma needsRefresh_rounds_beyond_safe_integers :
  @needsRefresh NaN_conversions 150148320914 1700000040001
     (updated_at (-9007199254800000))
    = (Normal false, updated_at (-9007199254800000)) /\
  1700000040001 - -9007199254800000 = 150148320914 * 60 * 1000 + 1 /\
  ~ safe_integer (-9007199254800000).
Proof.
  split; [vm_compute; reflexivity |]. split; [reflexivity |].
  unfold safe_integer. simpl. lia.
Qed.

(** C10: when the stored timestamp is 0, [needsRefresh(m)] returns [true]
    whatever [m] and the clock are: [!lastUpdate] holds for 0, as it does
    for [null]. *)
Theorem needsRefresh_epoch_is_stale `{StringConversions} (m now : Z)
    (st : LocalStorage) :
  items st !! LAST_UPDATE = Some (JSONText (JNum 0)) ->
  fst (getLastUpdate st) = Normal (if available st then JNum 0 else JNull) /\
  needsRefresh m now st = (Normal true, st).
Proof.
  intros Hi. rewrite needsRefresh_eq. unfold getLastUpdate.
  rewrite getFromStorage_eq. unfold stored. rewrite Hi.
  destruct (available st); split; reflexivity.
Qed.

Lemma needsRefresh_epoch_is_stale_witness :
  @needsRefresh NaN_conversions 30000000 1700000000000 (updated_at 0)
    = (Normal true, updated_at 0).
Proof.
  apply (@needsRefresh_epoch_is_stale NaN_conversions 30000000 1700000000000
           (updated_at 0)).
  reflexivity.
Defined.

(** * Properties of the icon mapping *)

Lemma getWeatherIcon_known (iconCode : string) (e : Emoji) :
  obj_get iconMap iconCode = Some e -> getWeatherIcon iconCode = EmojiText e.
Proof.
  intros He. unfold getWeatherIcon, literal_get. rewrite He. reflexivity.
Qed.

Lemma getWeatherIcon_fallback (iconCode : string) :
  obj_get iconMap iconCode = None ->
  ~ In iconCode Object_prototype_members ->
  getWeatherIcon iconCode = EmojiText Thermometer.
Proof.
  intros Hk Hm. unfold getWeatherIcon, literal_get. rewrite Hk.
  destruct (existsb (String.eqb iconCode) Object_prototype_members) eqn:Hex;
    [| reflexivity].
  apply List.existsb_exists in Hex. destruct Hex as [x [Hx Heq]].
  apply String.eqb_eq in Heq. subst x. contradiction.
Qed.

(** C7 fails where the code reads an inherited member: "constructor" is
    not a key of [iconMap], yet [getWeatherIcon] returns the member that
    [iconMap] inherits under that name, not the fallback symbol. *)
Theorem getWeatherIcon_inherited_member :
  obj_get iconMap "constructor" = None /\
  getWeatherIcon "constructor" = Inherited "constructor" /\
  getWeatherIcon "constructor" <> EmojiText Thermometer.
Proof.
  split; [reflexivity |]. split; [reflexivity | discriminate].
Qed.

(** * Further properties of the preference store *)

Lemma removeFromStorage_eq (key : string) (st : LocalStorage) :
  removeFromStorage key st =
  if available st then (Normal true, with_items st (delete key (items st)))
  else (Normal false, st).
Proof.
  unfold removeFromStorage, try_catch, bind, localStorage_removeItem, ret.
  destruct (available st); reflexivity.
Qed.

(** X1: [removeFromStorage] never throws.  In an accessible storage area
    it returns [true], the key then reads as [null] and the other keys
    keep what they held; in an inaccessible one it returns [false] and
    changes nothing. *)
Theorem removeFromStorage_forgets_key (key : string) (st : LocalStorage) :
  (available st = true ->
   exists st',
     removeFromStorage key st = (Normal true, st') /\
     getFromStorage key st' = (Normal JNull, st') /\
     forall k, k <> key -> items st' !! k = items st !! k) /\
  (available st = false -> removeFromStorage key st = (Normal false, st)).
Proof.
  rewrite removeFromStorage_eq. split; intros Ha; rewrite Ha; [| reflexivity].
  eexists. split; [reflexivity |]. split.
  - rewrite getFromStorage_eq. unfold stored, with_items. simpl.
    rewrite Ha, lookup_delete_eq. reflexivity.
  - intros k Hk. unfold with_items. simpl. apply lookup_delete_ne. congruence.
Qed.

Lemma removeFromStorage_forgets_key_witness :
  exists st',
    removeFromStorage THEME shared_storage = (Normal true, st') /\
    getFromStorage THEME st' = (Normal JNull, st') /\
    forall k, k <> THEME -> items st' !! k = items shared_storage !! k.
Proof.
  apply (proj1 (removeFromStorage_forgets_key THEME shared_storage)).
  reflexivity.
Defined.

Lemma clearAllStorage_eq (st : LocalStorage) :
  clearAllStorage st =
  if available st then
    (Normal true,
     with_items st
       (delete LAST_UPDATE (delete UNIT (delete THEME
          (delete FAVORITE_CITIES (delete LAST_CITY (items st)))))))
  else (Normal false, st).
Proof.
  destruct st as [a m q].
  unfold clearAllStorage, try_catch, bind, ret. simpl.
  unfold bind, localStorage_removeItem, ret. simpl.
  destruct a; reflexivity.
Qed.

(** X2: [clearAllStorage] never throws.  In an accessible storage area it
    returns [true], none of the five keys of the app is left, and every
    other key keeps what it held; in an inaccessible one it returns
    [false] and changes nothing. *)
Theorem clearAllStorage_clears_app_keys (st : LocalStorage) :
  (available st = true ->
   exists st',
     clearAllStorage st = (Normal true, st') /\
     (forall key, In key (Object_values STORAGE_KEYS) -> items st' !! key = None) /\
     (forall k, ~ In k (Object_values STORAGE_KEYS) ->
        items st' !! k = items st !! k)) /\
  (available st = false -> clearAllStorage st = (Normal false, st)).
Proof.
  rewrite clearAllStorage_eq. split; intros Ha; rewrite Ha; [| reflexivity].
  eexists. split; [reflexivity |]. unfold with_items. simpl. split.
  - intros key [<- | [<- | [<- | [<- | [<- | []]]]]];
      rewrite ?lookup_delete_eq; try reflexivity;
      repeat (rewrite lookup_delete_ne by discriminate;
              rewrite ?lookup_delete_eq); reflexivity.
  - intros k Hk. simpl in Hk.
    rewrite !lookup_delete_ne; [reflexivity | | | | |];
      intros E; apply Hk; rewrite E; tauto.
Qed.

Lemma clearAllStorage_clears_app_keys_witness :
  exists st',
    clearAllStorage shared_storage = (Normal true, st') /\
    items st' !! THEME = None /\
    items st' !! UNIT = None /\
    items st' !! "other_app" = Some (JSONText (JStr "kept")).
Proof.
  destruct (proj1 (clearAllStorage_clears_app_keys shared_storage) eq_refl)
    as (st' & Hclear & Hgone & Hkept).
  exists st'. split; [exact Hclear |].
  split; [apply Hgone; simpl; tauto |].
  split; [apply Hgone; simpl; tauto |].
  rewrite Hkept; [reflexivity |].
  simpl. intros [E | [E | [E | [E | [E | []]]]]]; discriminate E.
Defined.

(** X3: what [saveToStorage] reports is what happened.  When it returns
    [true], [getFromStorage] reads the saved value back under that key and
    every other key keeps what it held; when it returns [false], the
    storage area is unchanged. *)
Theorem save_then_load (key : string) (j : json) (st : LocalStorage) :
  exists saved st',
    saveToStorage key (Data j) st = (Normal saved, st') /\
    (saved = true ->
       getFromStorage key st' = (Normal j, st') /\
       forall k, k <> key -> items st' !! k = items st !! k) /\
    (saved = false -> st' = st).
Proof.
  rewrite saveToStorage_eq. destruct (writable key j st) eqn:Hw.
  - eexists _, _. split; [reflexivity |]. split; [| discriminate].
    intros _. apply andb_true_iff in Hw. destruct Hw as [Ha _]. split.
    + rewrite getFromStorage_eq, stored_written_same by exact Ha. reflexivity.
    + intros k Hk. unfold written, with_items. simpl.
      apply lookup_insert_ne. congruence.
  - eexists _, _. split; [reflexivity |]. split; [discriminate | reflexivity].
Qed.

Lemma saveToStorage_true (key : string) (j : json) (st st' : LocalStorage) :
  saveToStorage key (Data j) st = (Normal true, st') ->
  available st = true /\ st' = written key j st.
Proof.
  rewrite saveToStorage_eq. destruct (writable key j st) eqn:Hw; [| discriminate].
  intros [= <-]. apply andb_true_iff in Hw. tauto.
Qed.

Lemma available_written (key : string) (j : json) (st : LocalStorage) :
  available (written key j st) = available st.
Proof. reflexivity. Qed.

(** X4: the typed accessors read back what was saved.  After a
    successful [saveLastCity(city)], [getLastCity] returns the object with
    that name and the time of the call; after a successful [saveTheme],
    [getTheme] returns the theme; after a successful [saveLastUpdate],
    [getLastUpdate] returns the timestamp. *)
Theorem typed_accessors_round_trip (st st' : LocalStorage) :
  (forall city now, saveLastCity city now st = (Normal true, st') ->
     getLastCity st' =
       (Normal (JObj [("name", JStr city); ("timestamp", JNum now)]), st')) /\
  (forall theme, saveTheme theme st = (Normal true, st') ->
     getTheme st' = (Normal (JStr theme), st')) /\
  (forall t, saveLastUpdate t st = (Normal true, st') ->
     getLastUpdate st' = (Normal (JNum t), st')).
Proof.
  unfold saveLastCity, getLastCity, saveTheme, getTheme, saveLastUpdate,
    getLastUpdate.
  split; [| split]; intros;
    match goal with
    | Hs : saveToStorage _ _ _ = _ |- _ =>
        apply saveToStorage_true in Hs; destruct Hs as [Ha ->]
    end;
    rewrite getFromStorage_eq, stored_written_same by exact Ha; reflexivity.
Qed.

Lemma typed_accessors_round_trip_witness :
  getLastCity (written LAST_CITY
                 (JObj [("name", JStr "Paris"); ("timestamp", JNum 1000)])
                 empty_storage)
  = (Normal (JObj [("name", JStr "Paris"); ("timestamp", JNum 1000)]),
     written LAST_CITY
       (JObj [("name", JStr "Paris"); ("timestamp", JNum 1000)]) empty_storage).
Proof.
  apply (proj1 (typed_accessors_round_trip empty_storage _) "Paris" 1000).
  reflexivity.
Defined.

Lemma getUnit_eq (st : LocalStorage) :
  getUnit st =
  (Normal (if truthy (stored UNIT st) then stored UNIT st else JStr "celsius"), st).
Proof.
  unfold getUnit, bind, ret. rewrite getFromStorage_eq. reflexivity.
Qed.

(** X5: [getUnit] falls back to "celsius" when no unit is stored, when
    the storage area is inaccessible, when the stored text is not JSON and
    when the empty string was saved; after a successful [saveUnit] of a
    non-empty unit it returns that unit. *)
Theorem getUnit_defaults_to_celsius (st : LocalStorage) :
  (items st !! UNIT = None -> getUnit st = (Normal (JStr "celsius"), st)) /\
  (available st = false -> getUnit st = (Normal (JStr "celsius"), st)) /\
  (items st !! UNIT = Some MalformedText ->
     getUnit st = (Normal (JStr "celsius"), st)) /\
  (forall st0, saveUnit "" st0 = (Normal true, st) ->
     getUnit st = (Normal (JStr "celsius"), st)) /\
  (forall st0 unit, unit <> "" -> saveUnit unit st0 = (Normal true, st) ->
     getUnit st = (Normal (JStr unit), st)).
Proof.
  rewrite getUnit_eq. unfold stored.
  split; [| split; [| split; [| split]]].
  - intros ->. destruct (available st); reflexivity.
  - intros ->. reflexivity.
  - intros ->. destruct (available st); reflexivity.
  - intros st0 Hs. apply saveToStorage_true in Hs. destruct Hs as [Ha ->].
    rewrite available_written, Ha. unfold written, with_items. simpl.
    rewrite lookup_insert_eq. reflexivity.
  - intros st0 unit Hne Hs. apply saveToStorage_true in Hs.
    destruct Hs as [Ha ->].
    rewrite available_written, Ha. unfold written, with_items. simpl.
    rewrite lookup_insert_eq. simpl.
    destruct (String.eqb_spec unit ""); [contradiction | reflexivity].
Qed.

Lemma getUnit_defaults_to_celsius_witness :
  getUnit empty_storage = (Normal (JStr "celsius"), empty_storage) /\
  getUnit blocked_storage = (Normal (JStr "celsius"), blocked_storage) /\
  getUnit (written UNIT (JStr "fahrenheit") empty_storage)
    = (Normal (JStr "fahrenheit"), written UNIT (JStr "fahrenheit") empty_storage).
Proof.
  split; [| split].
  - apply (proj1 (getUnit_defaults_to_celsius empty_storage)). reflexivity.
  - apply (proj1 (proj2 (getUnit_defaults_to_celsius blocked_storage))).
    reflexivity.
  - apply (proj2 (proj2 (proj2 (proj2 (getUnit_defaults_to_celsius
             (written UNIT (JStr "fahrenheit") empty_storage)))))
             empty_storage "fahrenheit"); [discriminate | reflexivity].
Defined.

(** ** Looking up a favorite *)

Lemma some_of_all_false (f : json -> completion bool) (xs : list json) :
  Forall (fun x => f x = Normal false) xs -> some_of f xs = Normal false.
Proof.
  induction 1 as [| x rest Hx _ IH]; simpl; [reflexivity |].
  rewrite Hx. simpl. exact IH.
Qed.

Lemma some_of_app (f : json -> completion bool) (xs ys : list json) :
  Forall (fun x => f x = Normal false) xs ->
  some_of f (xs ++ ys) = some_of f ys.
Proof.
  induction 1 as [| x rest Hx _ IH]; simpl; [reflexivity |].
  rewrite Hx. simpl. exact IH.
Qed.

Lemma isFavoriteCity_eq `{CaseMapping} (cityName : string) (st : LocalStorage) :
  isFavoriteCity cityName st =
  (match favorites_read st with
   | JArr favs => some_of (name_is cityName) favs
   | _ => Throw TypeError
   end, st).
Proof.
  unfold isFavoriteCity, bind. rewrite getFavoriteCities_eq.
  unfold lift, Array_some. fold (name_is cityName).
  destruct (favorites_read st); reflexivity.
Qed.

(** A favorite whose name differs from the name of [cityData] does not go
    by a name that equals it up to case. *)
Lemma same_name_false_name_is `{CaseMapping} (cityData : object json) (cityName : string)
    (fav : json) :
  name_toLowerCase (JObj cityData) = Normal (toLowerCase cityName) ->
  same_name_as cityData fav = Normal false ->
  name_is cityName fav = Normal false /\
  other_name_than cityName fav = Normal true.
Proof.
  unfold same_name_as, name_is, other_name_than. intros ->.
  destruct (name_toLowerCase fav) as [a |]; simpl; [| discriminate].
  intros [= ->]. split; reflexivity.
Qed.

Lemma favorites_read_written (favs : list json) (st : LocalStorage) :
  available st = true ->
  favorites_read (written FAVORITE_CITIES (JArr favs) st) = JArr favs.
Proof.
  intros Ha. unfold favorites_read.
  rewrite stored_written_same by exact Ha. reflexivity.
Qed.

(** What a successful [addFavoriteCity] did. *)
Lemma addFavoriteCity_true `{CaseMapping} (cityData : object json) (now : Z)
    (st st1 : LocalStorage) :
  addFavoriteCity cityData now st = (Normal true, st1) ->
  available st = true /\
  Forall (fun fav => same_name_as cityData fav = Normal false)
         (stored_favorites st) /\
  st1 = written FAVORITE_CITIES
          (JArr (stored_favorites st ++
                 [JObj (obj_set cityData "addedAt" (JNum now))])) st.
Proof.
  rewrite addFavoriteCity_eq.
  destruct (favorites_read st) as [| b | z | s | favs | props] eqn:Hr;
    try discriminate.
  destruct (some_of (same_name_as cityData) favs) as [[|] |] eqn:Hs;
    try discriminate.
  cbv zeta. destruct (writable _ _ st) eqn:Hw; [| discriminate].
  intros [= <-]. apply andb_true_iff in Hw. destruct Hw as [Ha _].
  assert (Hfavs : stored_favorites st = favs).
  { destruct (favorites_read_array st favs Hr) as [-> | [_ Heq]];
      [| exact Heq].
    destruct (favorites_read_empty st Hr) as [He | Hb]; [exact He | congruence]. }
  rewrite Hfavs. split; [exact Ha |]. split; [| reflexivity].
  apply some_of_false. exact Hs.
Qed.

(** X6: a successful [addFavoriteCity] appends.  The stored list is then
    the old one followed by the new favorite, which carries the
    properties of [cityData] and the time of the call as [addedAt]; no
    other key of the storage area changes. *)
Theorem addFavoriteCity_appends `{CaseMapping} (cityData : object json) (now : Z)
    (st st1 : LocalStorage) :
  addFavoriteCity cityData now st = (Normal true, st1) ->
  stored_favorites st1 =
    stored_favorites st ++ [JObj (obj_set cityData "addedAt" (JNum now))] /\
  obj_get (obj_set cityData "addedAt" (JNum now)) "addedAt" = Some (JNum now) /\
  (forall k, k <> "addedAt" ->
     obj_get (obj_set cityData "addedAt" (JNum now)) k = obj_get cityData k) /\
  (forall key, key <> FAVORITE_CITIES -> items st1 !! key = items st !! key).
Proof.
  intros Hadd. apply addFavoriteCity_true in Hadd.
  destruct Hadd as (_ & _ & ->).
  split; [apply stored_favorites_written |].
  split; [apply obj_get_set_eq |].
  split; [intros k Hk; apply obj_get_set_ne; congruence |].
  intros key Hkey. unfold written, with_items. simpl.
  apply lookup_insert_ne. congruence.
Qed.

Lemma addFavoriteCity_appends_witness :
  stored_favorites
    (written FAVORITE_CITIES
       (JArr [JObj (city "PARIS"); JObj (city "Lyon");
              JObj (obj_set (city "Nice") "addedAt" (JNum 3000))])
       empty_storage)
  = stored_favorites two_favorites ++
      [JObj (obj_set (city "Nice") "addedAt" (JNum 3000))].
Proof.
  apply (@addFavoriteCity_appends Latin (city "Nice") 3000 two_favorites).
  reflexivity.
Defined.

(** X7: after a successful [addFavoriteCity], [isFavoriteCity] returns
    [true] for every spelling of the city's name that agrees with it up
    to case. *)
Theorem isFavoriteCity_after_add `{CaseMapping} (cityData : object json) (now : Z)
    (cityName : string) (st st1 : LocalStorage) :
  addFavoriteCity cityData now st = (Normal true, st1) ->
  name_toLowerCase (JObj cityData) = Normal (toLowerCase cityName) ->
  isFavoriteCity cityName st1 = (Normal true, st1).
Proof.
  intros Hadd Hname. apply addFavoriteCity_true in Hadd.
  destruct Hadd as (Ha & Hfavs & ->).
  rewrite isFavoriteCity_eq, favorites_read_written by exact Ha.
  rewrite some_of_app.
  - simpl. unfold name_is. rewrite name_of_new_favorite, Hname. simpl.
    rewrite String.eqb_refl. reflexivity.
  - eapply Forall_impl; [exact Hfavs |]. intros fav Hfav.
    apply (same_name_false_name_is cityData cityName fav Hname Hfav).
Qed.

Lemma isFavoriteCity_after_add_witness :
  @isFavoriteCity Latin "PARIS" paris_saved = (Normal true, paris_saved).
Proof.
  apply (@isFavoriteCity_after_add Latin (city "Paris") 1000 "PARIS" empty_storage);
    reflexivity.
Defined.

Lemma filter_of_Normal (f : json -> completion bool) (xs ys : list json) :
  filter_of f xs = Normal ys ->
  ys = List.filter (fun x => match f x with
                             | Normal true => true
                             | _ => false
                             end) xs /\
  Forall (fun x => exists b, f x = Normal b) xs.
Proof.
  revert ys. induction xs as [| x rest IH]; simpl; intros ys.
  - intros [= <-]. split; [reflexivity | constructor].
  - destruct (f x) as [b |] eqn:Hx; simpl; [| discriminate].
    destruct (filter_of f rest) as [rest' |]; simpl; [| discriminate].
    destruct (IH rest' eq_refl) as [-> Hall].
    intros [= <-]. split; [destruct b; reflexivity |].
    constructor; eauto.
Qed.

(** What a successful [removeFavoriteCity] did. *)
Lemma removeFavoriteCity_true `{CaseMapping} (cityName : string) (st st1 : LocalStorage) :
  removeFavoriteCity cityName st = (Normal true, st1) ->
  available st = true /\
  Forall (fun fav => exists n, name_toLowerCase fav = Normal n)
         (stored_favorites st) /\
  st1 = written FAVORITE_CITIES
          (JArr (List.filter (fun fav => negb (named cityName fav))
                             (stored_favorites st))) st.
Proof.
  rewrite removeFavoriteCity_eq.
  destruct (favorites_read st) as [| b | z | s | favs | props] eqn:Hr;
    try discriminate.
  destruct (filter_of (other_name_than cityName) favs) as [filtered |] eqn:Hf;
    [| discriminate].
  destruct (writable _ _ st) eqn:Hw; [| discriminate].
  intros [= <-]. apply andb_true_iff in Hw. destruct Hw as [Ha _].
  assert (Hfavs : stored_favorites st = favs).
  { destruct (favorites_read_array st favs Hr) as [-> | [_ Heq]];
      [| exact Heq].
    destruct (favorites_read_empty st Hr) as [He | Hb]; [exact He | congruence]. }
  rewrite Hfavs. apply filter_of_Normal in Hf. destruct Hf as [-> Hall].
  assert (Hnames : Forall (fun fav => exists n, name_toLowerCase fav = Normal n)
                          favs).
  { eapply Forall_impl; [exact Hall |]. intros fav [b Hb].
    unfold other_name_than in Hb.
    destruct (name_toLowerCase fav) as [n |]; [eauto | discriminate]. }
  split; [exact Ha |]. split; [exact Hnames |].
  do 2 f_equal. apply List.filter_ext_in. intros fav Hin.
  rewrite Forall_forall in Hnames.
  destruct (Hnames fav) as [n Hn]; [apply list_elem_of_In; exact Hin |].
  unfold other_name_than, named. rewrite Hn. simpl.
  destruct (negb _); reflexivity.
Qed.

(** X8: after a successful [removeFavoriteCity(cityName)],
    [isFavoriteCity] returns [false] for every spelling that agrees with
    [cityName] up to case. *)
Theorem isFavoriteCity_after_remove `{CaseMapping} (cityName cityName' : string)
    (st st1 : LocalStorage) :
  removeFavoriteCity cityName st = (Normal true, st1) ->
  toLowerCase cityName' = toLowerCase cityName ->
  isFavoriteCity cityName' st1 = (Normal false, st1).
Proof.
  intros Hrem Hsame. apply removeFavoriteCity_true in Hrem.
  destruct Hrem as (Ha & Hnames & ->).
  rewrite isFavoriteCity_eq, favorites_read_written by exact Ha.
  rewrite some_of_all_false; [reflexivity |].
  apply Forall_forall. intros fav Hfav.
  apply list_elem_of_In, List.filter_In in Hfav. destruct Hfav as [Hin Hkeep].
  rewrite Forall_forall in Hnames.
  destruct (Hnames fav) as [n Hn]; [apply list_elem_of_In; exact Hin |].
  unfold named in Hkeep. unfold name_is. rewrite Hn in *. simpl.
  rewrite Hsame. apply negb_true_iff in Hkeep. rewrite Hkeep. reflexivity.
Qed.

Lemma isFavoriteCity_after_remove_witness :
  @isFavoriteCity Latin "paris"
    (written FAVORITE_CITIES (JArr [JObj (city "Lyon")]) two_favorites)
  = (Normal false,
     written FAVORITE_CITIES (JArr [JObj (city "Lyon")]) two_favorites).
Proof.
  apply (@isFavoriteCity_after_remove Latin "Paris" "paris" two_favorites);
    reflexivity.
Defined.

(** X9: [isFavoriteCity] has no [try]: when the stored favorites are a
    value other than an array (a number, a string, an object),
    [isFavoriteCity] throws a [TypeError], where [addFavoriteCity] and
    [removeFavoriteCity] return [false]; none of the three writes. *)
Theorem isFavoriteCity_throws_on_malformed_store `{CaseMapping} (cityName : string)
    (cityData : object json) (now : Z) (st : LocalStorage) (j : json) :
  available st = true ->
  items st !! FAVORITE_CITIES = Some (JSONText j) ->
  truthy j = true ->
  (forall favs, j <> JArr favs) ->
  isFavoriteCity cityName st = (Throw TypeError, st) /\
  addFavoriteCity cityData now st = (Normal false, st) /\
  removeFavoriteCity cityName st = (Normal false, st).
Proof.
  intros Ha Hi Ht Hj.
  rewrite isFavoriteCity_eq, addFavoriteCity_eq, removeFavoriteCity_eq.
  assert (Hr : favorites_read st = j).
  { unfold favorites_read, stored. rewrite Ha, Hi, Ht. reflexivity. }
  rewrite Hr. destruct j; try (split; [| split]; reflexivity).
  exfalso. exact (Hj _ eq_refl).
Qed.

Lemma isFavoriteCity_throws_on_malformed_store_witness :
  @isFavoriteCity Latin "Paris" number_for_favorites = (Throw TypeError, number_for_favorites) /\
  @addFavoriteCity Latin (city "Paris") 1000 number_for_favorites
    = (Normal false, number_for_favorites) /\
  @removeFavoriteCity Latin "Paris" number_for_favorites
    = (Normal false, number_for_favorites).
Proof.
  apply (@isFavoriteCity_throws_on_malformed_store Latin "Paris" (city "Paris") 1000
           number_for_favorites (JNum 5));
    (reflexivity || discriminate).
Defined.

(** ** Removing and updating a favorite *)

Lemma lower_names_filter_In `{CaseMapping} (g : json -> bool) (favs : list json) (n : string) :
  In n (lower_names (List.filter g favs)) -> In n (lower_names favs).
Proof.
  induction favs as [| fav rest IH]; simpl; [tauto |].
  destruct (g fav); simpl; destruct (name_toLowerCase fav); simpl; tauto.
Qed.

Lemma lower_names_filter_NoDup `{CaseMapping} (g : json -> bool) (favs : list json) :
  NoDup (lower_names favs) -> NoDup (lower_names (List.filter g favs)).
Proof.
  induction favs as [| fav rest IH]; simpl; [tauto |].
  destruct (name_toLowerCase fav) as [n |] eqn:Hn.
  - intros Hnd. apply NoDup_cons in Hnd. destruct Hnd as [Hnot Hnd].
    destruct (g fav); simpl; [| auto]. rewrite Hn. constructor; [| auto].
    intros Hin. apply Hnot. apply list_elem_of_In.
    apply list_elem_of_In in Hin. exact (lower_names_filter_In g rest n Hin).
  - intros Hnd. destruct (g fav); simpl; [rewrite Hn |]; auto.
Qed.

(** X10: every call of [removeFavoriteCity] keeps the names of the stored
    favorites distinct up to case. *)
Theorem removeFavoriteCity_keeps_names_unique `{CaseMapping} (cityName : string)
    (st : LocalStorage) :
  unique_names st -> unique_names (snd (removeFavoriteCity cityName st)).
Proof.
  intros Hu.
  destruct (removeFavoriteCity cityName st) as [[[|] | e] st1] eqn:Hrem.
  - apply removeFavoriteCity_true in Hrem. destruct Hrem as (_ & _ & ->).
    unfold unique_names. simpl. rewrite stored_favorites_written.
    apply lower_names_filter_NoDup. exact Hu.
  - rewrite removeFavoriteCity_eq in Hrem. simpl.
    destruct (favorites_read st) as [| b | z | s | favs | props];
      try (injection Hrem as <-; exact Hu).
    destruct (filter_of _ favs); [| injection Hrem as <-; exact Hu].
    destruct (writable _ _ st); [discriminate | injection Hrem as <-; exact Hu].
  - rewrite removeFavoriteCity_eq in Hrem. simpl.
    destruct (favorites_read st) as [| b | z | s | favs | props];
      try discriminate.
    destruct (filter_of _ favs); [| discriminate].
    destruct (writable _ _ st); discriminate.
Qed.

Lemma removeFavoriteCity_keeps_names_unique_witness :
  @unique_names Latin (snd (@removeFavoriteCity Latin "Paris" two_favorites)).
Proof.
  apply (@removeFavoriteCity_keeps_names_unique Latin "Paris" two_favorites).
  unfold unique_names. apply NoDup_ListNoDup. simpl.
  repeat constructor; simpl; intuition discriminate.
Defined.

Lemma filter_all_kept {A : Type} (g : A -> bool) (l : list A) :
  Forall (fun x => g x = true) l -> List.filter g l = l.
Proof.
  induction 1 as [| x rest Hx _ IH]; simpl; [reflexivity |].
  rewrite Hx, IH. reflexivity.
Qed.

(** X11: adding a city and then removing it by its name, in any
    spelling that agrees up to case, gives back the stored list of
    before. *)
Theorem add_then_remove `{CaseMapping} (cityData : object json) (now : Z) (cityName : string)
    (st st1 st2 : LocalStorage) :
  addFavoriteCity cityData now st = (Normal true, st1) ->
  name_toLowerCase (JObj cityData) = Normal (toLowerCase cityName) ->
  removeFavoriteCity cityName st1 = (Normal true, st2) ->
  stored_favorites st2 = stored_favorites st.
Proof.
  intros Hadd Hname Hrem.
  apply addFavoriteCity_true in Hadd. destruct Hadd as (Ha & Hfavs & ->).
  apply removeFavoriteCity_true in Hrem. destruct Hrem as (_ & _ & ->).
  rewrite !stored_favorites_written. rewrite List.filter_app. simpl.
  unfold named at 2. rewrite name_of_new_favorite, Hname, String.eqb_refl.
  simpl. rewrite app_nil_r. apply filter_all_kept.
  eapply Forall_impl; [exact Hfavs |]. intros fav Hfav.
  destruct (same_name_false_name_is cityData cityName fav Hname Hfav)
    as [_ Hother].
  unfold other_name_than in Hother. unfold named.
  destruct (name_toLowerCase fav); [| discriminate].
  simpl in Hother. congruence.
Qed.

Lemma add_then_remove_witness :
  stored_favorites
    (written FAVORITE_CITIES (JArr [JObj (city "PARIS"); JObj (city "Lyon")])
       (written FAVORITE_CITIES
          (JArr [JObj (city "PARIS"); JObj (city "Lyon");
                 JObj (obj_set (city "Nice") "addedAt" (JNum 3000))])
          two_favorites))
  = stored_favorites two_favorites.
Proof.
  apply (@add_then_remove Latin (city "Nice") 3000 "NICE" two_favorites
           (written FAVORITE_CITIES
              (JArr [JObj (city "PARIS"); JObj (city "Lyon");
                     JObj (obj_set (city "Nice") "addedAt" (JNum 3000))])
              two_favorites));
    reflexivity.
Defined.

Lemma findIndex_from_none (f : json -> completion bool) (xs : list json) (i : Z) :
  Forall (fun x => f x = Normal false) xs -> findIndex_from f xs i = Normal (-1).
Proof.
  intros Hall. revert i. induction Hall as [| x rest Hx _ IH]; intros i; simpl;
    [reflexivity |].
  rewrite Hx. simpl. apply IH.
Qed.

Lemma findIndex_from_found (f : json -> completion bool) (pre post : list json)
    (x : json) (i : Z) :
  Forall (fun y => f y = Normal false) pre -> f x = Normal true ->
  findIndex_from f (pre ++ x :: post) i = Normal (i + Z.of_nat (length pre)).
Proof.
  intros Hpre Hx. revert i.
  induction Hpre as [| y rest Hy _ IH]; intros i; simpl.
  - rewrite Hx. simpl. f_equal. lia.
  - rewrite Hy. simpl. rewrite IH. f_equal. lia.
Qed.

(** [findIndex] returns [-1] or the index of the first element that
    passes the test. *)
Lemma findIndex_from_Normal (f : json -> completion bool) (xs : list json)
    (i j : Z) :
  findIndex_from f xs i = Normal j ->
  (j = -1 /\ Forall (fun x => f x = Normal false) xs) \/
  (exists pre x post,
     xs = pre ++ x :: post /\
     Forall (fun y => f y = Normal false) pre /\
     f x = Normal true /\ j = i + Z.of_nat (length pre)).
Proof.
  revert i. induction xs as [| x rest IH]; intros i; simpl.
  - intros [= <-]. left. split; [reflexivity | constructor].
  - destruct (f x) as [[|] |] eqn:Hx; simpl; [| | discriminate].
    + intros [= <-]. right. exists [], x, rest. simpl.
      repeat split; [constructor | exact Hx | lia].
    + intros Hrest. destruct (IH _ Hrest) as [[-> Hall] | Hfound].
      * left. split; [reflexivity | constructor; assumption].
      * destruct Hfound as (pre & y & post & -> & Hpre & Hy & ->).
        right. exists (x :: pre), y, post. simpl.
        repeat split; [constructor; assumption | exact Hy | lia].
Qed.

Lemma updateFavoriteCityWeather_eq `{CaseMapping} (cityName : string) (weatherData : object json)
    (now : Z) (st : LocalStorage) :
  updateFavoriteCityWeather cityName weatherData now st =
  match favorites_read st with
  | JArr xs =>
      match findIndex_from (name_is cityName) xs 0 with
      | Normal index =>
          if negb (index =? -1) then
            let favs :=
              <[Z.to_nat index :=
                  updated_favorite (own_properties (xs !! Z.to_nat index))
                                   weatherData now]> xs in
            if writable FAVORITE_CITIES (JArr favs) st
            then (Normal true, written FAVORITE_CITIES (JArr favs) st)
            else (Normal false, st)
          else (Normal false, st)
      | Throw _ => (Normal false, st)
      end
  | _ => (Normal false, st)
  end.
Proof.
  unfold updateFavoriteCityWeather, try_catch, bind.
  rewrite getFavoriteCities_eq. fold (name_is cityName).
  destruct (favorites_read st) as [| b | n | s | xs | props]; try reflexivity.
  unfold lift.
  destruct (findIndex_from (name_is cityName) xs 0) as [index |];
    [| reflexivity].
  destruct (negb (index =? -1)); [| reflexivity].
  rewrite saveToStorage_eq. unfold updated_favorite. cbv zeta.
  destruct (writable _ _ st); reflexivity.
Qed.

Lemma name_is_true_named `{CaseMapping} (cityName : string) (fav : json) :
  name_is cityName fav = Normal true ->
  named cityName fav = true /\ exists props, fav = JObj props.
Proof.
  unfold name_is, named, name_toLowerCase.
  destruct fav as [| b | n | s | xs | props]; try discriminate.
  destruct (obj_get props "name") as [[| b | n | s | xs | ps] |];
    try discriminate.
  simpl. intros [= ->]. split; [reflexivity | eauto].
Qed.

(** X12: when no stored favorite goes by [cityName],
    [updateFavoriteCityWeather] returns [false] and writes nothing. *)
Theorem updateFavoriteCityWeather_unknown_city `{CaseMapping} (cityName : string)
    (weatherData : object json) (now : Z) (st : LocalStorage) :
  Forall (fun fav => named cityName fav = false) (stored_favorites st) ->
  updateFavoriteCityWeather cityName weatherData now st = (Normal false, st).
Proof.
  intros Hnone. rewrite updateFavoriteCityWeather_eq.
  destruct (favorites_read st) as [| b | n | s | xs | props] eqn:Hr;
    try reflexivity.
  destruct (findIndex_from (name_is cityName) xs 0) as [index |] eqn:Hfind;
    [| reflexivity].
  destruct (findIndex_from_Normal _ _ _ _ Hfind) as [[-> _] | Hfound];
    [reflexivity |].
  destruct Hfound as (pre & x & post & -> & _ & Hx & _). exfalso.
  apply name_is_true_named in Hx. destruct Hx as [Hx _].
  destruct (favorites_read_array st _ Hr) as [Hnil | [_ Hstored]].
  - destruct pre; discriminate.
  - rewrite Hstored in Hnone. rewrite Forall_forall in Hnone.
    rewrite Hnone in Hx; [discriminate |].
    apply list_elem_of_In, in_or_app. right. left. reflexivity.
Qed.

Lemma updateFavoriteCityWeather_unknown_city_witness :
  @updateFavoriteCityWeather Latin "Nice" [("temperature", JNum 25)] 4000 two_favorites
  = (Normal false, two_favorites).
Proof.
  apply (@updateFavoriteCityWeather_unknown_city Latin "Nice"
           [("temperature", JNum 25)] 4000 two_favorites).
  repeat constructor.
Defined.

Lemma obj_get_None_keys {A : Type} (o : object A) (k : string) :
  obj_get o k = None <-> ~ In k (obj_keys o).
Proof.
  induction o as [| [k0 v0] rest IH]; simpl; [tauto |].
  destruct (String.eqb_spec k0 k) as [-> | Hne].
  - split; [discriminate | tauto].
  - rewrite IH. tauto.
Qed.

(** A spread adds or overwrites the properties of the source and keeps
    the others. *)
Lemma spread_get (target source : object json) (k : string) :
  NoDup (obj_keys source) ->
  obj_get (spread target source) k =
  match obj_get source k with
  | Some v => Some v
  | None => obj_get target k
  end.
Proof.
  unfold spread. revert target.
  induction source as [| [k0 v0] rest IH]; intros target Hnd; simpl;
    [reflexivity |].
  simpl in Hnd. apply NoDup_cons in Hnd. destruct Hnd as [Hk0 Hnd].
  rewrite IH by exact Hnd. rewrite obj_get_set.
  destruct (String.eqb_spec k0 k) as [<- | Hne]; [| reflexivity].
  assert (Hnone : obj_get rest k0 = None).
  { apply obj_get_None_keys. rewrite <- list_elem_of_In. exact Hk0. }
  rewrite Hnone. reflexivity.
Qed.

Lemma spread_get_other (target source : object json) (k : string) :
  obj_get source k = None ->
  obj_get (spread target source) k = obj_get target k.
Proof.
  unfold spread. revert target.
  induction source as [| [k0 v0] rest IH]; intros target; simpl;
    [reflexivity |].
  destruct (String.eqb_spec k0 k) as [-> | Hne]; [discriminate |].
  intros Hrest. rewrite IH by exact Hrest. apply obj_get_set_ne. exact Hne.
Qed.

(** X13: when the favorite at the first match of [cityName] is found and
    the write is accepted, [updateFavoriteCityWeather] returns [true] and
    replaces that one favorite, leaving the others and their order as
    they were.  In the new entry [lastUpdated] is the time of the call,
    the properties of [weatherData] come next, and the properties of the
    old entry that [weatherData] does not have are kept. *)
Theorem updateFavoriteCityWeather_updates_first_match `{CaseMapping} (cityName : string)
    (weatherData : object json) (now : Z) (st : LocalStorage)
    (pre post : list json) (props : object json) :
  available st = true ->
  items st !! FAVORITE_CITIES =
    Some (JSONText (JArr (pre ++ JObj props :: post))) ->
  Forall (fun fav => name_is cityName fav = Normal false) pre ->
  name_is cityName (JObj props) = Normal true ->
  NoDup (obj_keys weatherData) ->
  writable FAVORITE_CITIES
    (JArr (pre ++ updated_favorite props weatherData now :: post)) st = true ->
  exists st',
    updateFavoriteCityWeather cityName weatherData now st = (Normal true, st') /\
    stored_favorites st' =
      pre ++ updated_favorite props weatherData now :: post /\
    forall k,
      obj_get (obj_set (spread props weatherData) "lastUpdated" (JNum now)) k =
      if String.eqb "lastUpdated" k then Some (JNum now)
      else match obj_get weatherData k with
           | Some v => Some v
           | None => obj_get props k
           end.
Proof.
  intros Ha Hi Hpre Hx Hnd Hw.
  rewrite updateFavoriteCityWeather_eq, (favorites_read_stored st _ Ha Hi).
  rewrite (findIndex_from_found _ pre post (JObj props) 0 Hpre Hx).
  replace (0 + Z.of_nat (length pre)) with (Z.of_nat (length pre)) by lia.
  replace (negb (Z.of_nat (length pre) =? -1)) with true
    by (symmetry; apply negb_true_iff, Z.eqb_neq; lia).
  rewrite Nat2Z.id. cbv zeta.
  rewrite list_lookup_middle by reflexivity.
  replace (<[length pre := updated_favorite (own_properties (Some (JObj props)))
                             weatherData now]> (pre ++ JObj props :: post))
    with (pre ++ updated_favorite props weatherData now :: post).
  - rewrite Hw. eexists. split; [reflexivity |].
    split; [apply stored_favorites_written |].
    intros k. rewrite obj_get_set. rewrite spread_get by exact Hnd.
    reflexivity.
  - symmetry. replace (length pre) with (length pre + 0)%nat at 1 by lia.
    rewrite insert_app_r. reflexivity.
Qed.

Lemma updateFavoriteCityWeather_updates_first_match_witness :
  exists st',
    @updateFavoriteCityWeather Latin "lyon" [("temperature", JNum 25)] 4000 two_favorites
      = (Normal true, st') /\
    stored_favorites st' =
      [JObj (city "PARIS")] ++
      updated_favorite (city "Lyon") [("temperature", JNum 25)] 4000 :: [].
Proof.
  destruct (@updateFavoriteCityWeather_updates_first_match Latin "lyon"
              [("temperature", JNum 25)] 4000 two_favorites
              [JObj (city "PARIS")] [] (city "Lyon"))
    as (st' & Hupd & Hfavs & _).
  - reflexivity.
  - reflexivity.
  - repeat constructor.
  - reflexivity.
  - apply NoDup_ListNoDup. repeat constructor. simpl. tauto.
  - reflexivity.
  - exists st'. split; assumption.
Defined.

Lemma lower_names_middle `{CaseMapping} (pre post : list json) (x y : json) :
  name_toLowerCase x = name_toLowerCase y ->
  lower_names (pre ++ x :: post) = lower_names (pre ++ y :: post).
Proof.
  intros Hxy. rewrite !lower_names_app. simpl. rewrite Hxy. reflexivity.
Qed.

(** X14: when [weatherData] has no [name] property,
    [updateFavoriteCityWeather] leaves the names of the stored favorites
    as they were; in particular it keeps them distinct up to case. *)
Theorem updateFavoriteCityWeather_keeps_names `{CaseMapping} (cityName : string)
    (weatherData : object json) (now : Z) (st : LocalStorage) :
  obj_get weatherData "name" = None ->
  lower_names (stored_favorites
                 (snd (updateFavoriteCityWeather cityName weatherData now st)))
  = lower_names (stored_favorites st) /\
  (unique_names st ->
   unique_names (snd (updateFavoriteCityWeather cityName weatherData now st))).
Proof.
  intros Hname.
  assert (Hsame : lower_names (stored_favorites
                    (snd (updateFavoriteCityWeather cityName weatherData now st)))
                  = lower_names (stored_favorites st)).
  { rewrite updateFavoriteCityWeather_eq.
    destruct (favorites_read st) as [| b | n | s | xs | ps] eqn:Hr;
      try reflexivity.
    destruct (findIndex_from (name_is cityName) xs 0) as [index |] eqn:Hfind;
      [| reflexivity].
    destruct (findIndex_from_Normal _ _ _ _ Hfind) as [[-> _] | Hfound];
      [reflexivity |].
    destruct Hfound as (pre & x & post & -> & _ & Hx & ->).
    replace (0 + Z.of_nat (length pre)) with (Z.of_nat (length pre)) by lia.
    replace (negb (Z.of_nat (length pre) =? -1)) with true
      by (symmetry; apply negb_true_iff, Z.eqb_neq; lia).
    rewrite Nat2Z.id. cbv zeta.
    destruct (writable _ _ st) eqn:Hw; [| reflexivity].
    cbn [snd]. rewrite stored_favorites_written.
    rewrite list_lookup_middle by reflexivity.
    apply name_is_true_named in Hx. destruct Hx as [_ [props ->]].
    replace (length pre) with (length pre + 0)%nat at 1 by lia.
    rewrite insert_app_r. simpl.
    apply andb_true_iff in Hw. destruct Hw as [Ha _].
    destruct (favorites_read_array st _ Hr) as [Hnil | [_ ->]];
      [destruct pre; discriminate |].
    apply lower_names_middle. unfold updated_favorite, name_toLowerCase.
    rewrite obj_get_set_ne by discriminate.
    rewrite spread_get_other by exact Hname. reflexivity. }
  split; [exact Hsame |]. unfold unique_names. rewrite Hsame. tauto.
Qed.

Lemma updateFavoriteCityWeather_keeps_names_witness :
  @lower_names Latin (stored_favorites
                 (snd (@updateFavoriteCityWeather Latin "lyon" [("temperature", JNum 25)]
                         4000 two_favorites)))
  = @lower_names Latin (stored_favorites two_favorites).
Proof.
  apply (@updateFavoriteCityWeather_keeps_names Latin "lyon"
           [("temperature", JNum 25)] 4000 two_favorites).
  reflexivity.
Defined.

(** ** Export and import *)

Lemma exportData_eq (st : LocalStorage) :
  exportData st =
  (Normal (JObj [ ("LAST_CITY", stored LAST_CITY st);
                  ("FAVORITE_CITIES", stored FAVORITE_CITIES st);
                  ("THEME", stored THEME st);
                  ("UNIT", stored UNIT st);
                  ("LAST_UPDATE", stored LAST_UPDATE st) ]), st).
Proof.
  unfold exportData, try_catch, bind. simpl. unfold bind.
  repeat (rewrite getFromStorage_eq; unfold ret; simpl).
  reflexivity.
Qed.

Lemma bind_Normal {A B : Type} (c : JS A) (k : A -> JS B) (a : A)
    (st st' : LocalStorage) :
  c st = (Normal a, st') -> bind c k st = k a st'.
Proof. intros Hc. unfold bind. rewrite Hc. reflexivity. Qed.

(** The callback of [importData]'s loop. *)
Lemma import_entry_eq (data : object json) (entry : string * string)
    (st : LocalStorage) :
  exists st',
    (match obj_get data (fst entry) with
     | Some value =>
         let* _ := saveToStorage (snd entry) (Data value) in
         ret tt
     | None => ret tt
     end) st = (Normal tt, st') /\
    (available st = false -> st' = st) /\
    (roomy st ->
     roomy st' /\
     st' = match obj_get data (fst entry) with
           | Some value => written (snd entry) value st
           | None => st
           end).
Proof.
  destruct (obj_get data (fst entry)) as [value |].
  - unfold bind. rewrite saveToStorage_eq. unfold writable.
    destruct (available st) eqn:Ha; simpl.
    + destruct (within_quota st _) eqn:Hq.
      * eexists. split; [reflexivity |]. split; [discriminate |].
        intros [_ Hroom]. split; [| reflexivity].
        split; [exact Ha | exact Hroom].
      * eexists. split; [reflexivity |]. split; [discriminate |].
        intros [_ Hroom]. rewrite Hroom in Hq. discriminate.
    + eexists. split; [reflexivity |]. split; [reflexivity |].
      intros [Hav _]. congruence.
  - eexists. split; [reflexivity |]. split; [reflexivity |]. tauto.
Qed.

(** X15: [importData] does not report a failed write.  It returns [true]
    for every object and every storage area; when the storage area is
    inaccessible nothing was written. *)
Theorem importData_always_reports_success (data : object json)
    (st : LocalStorage) :
  exists st',
    importData data st = (Normal true, st') /\
    (available st = false -> st' = st).
Proof.
  unfold importData, try_catch, Object_entries.
  assert (Hloop : forall entries st0,
            exists st', forEachJS (fun (_ : unit) (entry : string * string) =>
                          match obj_get data (fst entry) with
                          | Some value =>
                              let* _ := saveToStorage (snd entry) (Data value) in
                              ret tt
                          | None => ret tt
                          end) entries tt st0 = (Normal tt, st') /\
                        (available st0 = false -> st' = st0)).
  { induction entries as [| entry rest IH]; intros st0; simpl.
    - eexists. split; [reflexivity | tauto].
    - destruct (import_entry_eq data entry st0) as (st1 & Hstep & Hsame & _).
      rewrite (bind_Normal _ _ _ _ _ Hstep).
      destruct (IH st1) as (st2 & -> & Hsame').
      eexists. split; [reflexivity |]. intros Hb.
      rewrite Hsame' by (rewrite (Hsame Hb); exact Hb). auto. }
  destruct (Hloop STORAGE_KEYS st) as (st' & Hrun & Hsame).
  rewrite (bind_Normal _ _ _ _ _ Hrun).
  eexists. split; [reflexivity | exact Hsame].
Qed.

Lemma roomy_written (key : string) (j : json) (st : LocalStorage) :
  roomy st -> roomy (written key j st).
Proof. intros [Ha Hq]. split; [exact Ha | exact Hq]. Qed.

Lemma stored_written (key key' : string) (j : json) (st : LocalStorage) :
  available st = true ->
  stored key' (written key j st) =
  if String.eqb key key' then j else stored key' st.
Proof.
  intros Ha. unfold stored, written, with_items. simpl. rewrite Ha.
  destruct (String.eqb_spec key key') as [<- | Hne].
  - rewrite lookup_insert_eq. reflexivity.
  - rewrite lookup_insert_ne by exact Hne. reflexivity.
Qed.

(** X16: what [exportData] returns for one storage area, [importData]
    restores in another that takes every write: afterwards each of the
    five keys reads in the second as it read in the first. *)
Theorem import_of_export (st1 st2 : LocalStorage) (data : object json) :
  exportData st1 = (Normal (JObj data), st1) ->
  roomy st2 ->
  exists st2',
    importData data st2 = (Normal true, st2') /\
    forall key, In key (Object_values STORAGE_KEYS) ->
      stored key st2' = stored key st1.
Proof.
  rewrite exportData_eq. intros [= <-] Hroom.
  pose proof Hroom as [Ha Hq].
  assert (Hsave : forall key j st, roomy st ->
            saveToStorage key (Data j) st = (Normal true, written key j st)).
  { intros key j st [Hav Hquota]. rewrite saveToStorage_eq. unfold writable.
    rewrite Hav, Hquota. reflexivity. }
  unfold importData, try_catch, bind, Object_entries. simpl. unfold bind.
  repeat (rewrite Hsave by (repeat apply roomy_written; exact Hroom); simpl).
  eexists. split; [reflexivity |].
  intros key [<- | [<- | [<- | [<- | [<- | []]]]]];
    repeat (rewrite stored_written by reflexivity || exact Ha; simpl);
    reflexivity.
Qed.

Lemma import_of_export_witness :
  exists st2',
    importData [ ("LAST_CITY", JNull); ("FAVORITE_CITIES", JNull);
                 ("THEME", JStr "dark"); ("UNIT", JStr "fahrenheit");
                 ("LAST_UPDATE", JNull) ] empty_storage = (Normal true, st2') /\
    forall key, In key (Object_values STORAGE_KEYS) ->
      stored key st2' = stored key shared_storage.
Proof.
  apply (import_of_export shared_storage empty_storage).
  - reflexivity.
  - split; reflexivity.
Defined.



(** * Further properties of the forecast formatter *)

(** X17: every entry [formatForecast] returns was built from a sample of
    the input that has the entry's date key; when a single sample of the
    input has that date key, the entry is built from it, whatever its
    hour. *)
Theorem formatForecast_entries_from_samples `{LocalTimeZone} (data : ForecastData) :
  Forall valid_item (data_list data) ->
  exists out,
    formatForecast data = Normal out /\
    (forall e, In e out ->
       exists item, In item (data_list data) /\
                    dateKeyOf item = Normal (date e) /\
                    forecastEntry (date e) item = Normal e) /\
    (forall e item, In e out -> In item (data_list data) ->
       dateKeyOf item = Normal (date e) ->
       (forall other, In other (data_list data) ->
          dateKeyOf other = Normal (date e) -> other = item) ->
       forecastEntry (date e) item = Normal e).
Proof.
  intros Hvalid. unfold formatForecast.
  destruct (groupByDay_valid _ Hvalid) as (o & Hg & G & _ & Hown).
  rewrite Hg. simpl. eexists. split; [reflexivity |].
  assert (Hfrom : forall e, In e (take 5 (Object_values o)) ->
            exists item, In item (data_list data) /\
                         dateKeyOf item = Normal (date e) /\
                         forecastEntry (date e) item = Normal e).
  { intros e He. apply list_elem_of_In, subseteq_take in He.
    unfold Object_values in He. apply list_elem_of_In, in_map_iff in He.
    destruct He as ([k e'] & He' & Hin). simpl in He'. subst e'.
    rewrite Forall_forall in Hown. apply list_elem_of_In in Hin.
    specialize (Hown _ Hin). simpl in Hown.
    destruct (grouped_entry_time _ _ k e G Hown) as (_ & _ & Hd).
    rewrite Hd. exact (grouped_from _ _ G k e Hown). }
  split; [exact Hfrom |].
  intros e item He Hin Hkey Honly.
  destruct (Hfrom e He) as (item' & Hin' & Hkey' & Hentry).
  rewrite <- (Honly item' Hin' Hkey'). exact Hentry.
Qed.

Lemma formatForecast_entries_from_samples_witness :
  exists out,
    @formatForecast UTC three_days = Normal out /\
    forall e, In e out ->
      exists item, In item (data_list three_days) /\
                   dateKeyOf item = Normal (date e) /\
                   forecastEntry (date e) item = Normal e.
Proof.
  destruct (@formatForecast_entries_from_samples UTC three_days)
    as (out & Hout & Hfrom & _).
  - repeat constructor; unfold validTime; simpl; (lia || discriminate).
  - exists out. split; assumption.
Defined.

Lemma groupByDay_app `{LocalTimeZone} (pre rest : list ForecastItem) :
  Forall valid_item pre ->
  exists o, grouped pre o /\
            groupByDay (pre ++ rest) = forEach forecastStep rest o.
Proof.
  intros Hvalid.
  destruct (groupByDay_valid pre Hvalid) as (o & Hg & G & _ & _).
  exists o. split; [exact G |].
  unfold groupByDay in *. rewrite forEach_app, Hg. reflexivity.
Qed.

(** X18: what [formatForecast] throws.  After samples that are valid, a
    sample whose time is outside the range of [Date] makes it throw a
    [RangeError], and a sample without a weather condition, on a date
    that no earlier sample has, makes it throw a [TypeError]. *)
Theorem formatForecast_throws `{LocalTimeZone} (pre post : list ForecastItem)
    (item : ForecastItem) :
  Forall valid_item pre ->
  (~ validTime (itemTime item) ->
   formatForecast {| data_list := pre ++ item :: post |} = Throw RangeError) /\
  (validTime (itemTime item) -> weather item = [] ->
   Forall (fun earlier => dateKeyOf earlier <> dateKeyOf item) pre ->
   formatForecast {| data_list := pre ++ item :: post |} = Throw TypeError).
Proof.
  intros Hvalid. unfold formatForecast. simpl data_list.
  destruct (groupByDay_app pre (item :: post) Hvalid) as (o & G & ->).
  simpl. split.
  - intros Hbad. unfold forecastStep, newDate.
    unfold validTime, itemTime in Hbad.
    destruct (Z.abs (dt item * 1000) <=? maxTimeValue) eqn:L;
      [apply Z.leb_le in L; contradiction | reflexivity].
  - intros Ht Hw Hnew.
    rewrite (forecastStep_eq pre o item _ G (dateKeyOf_valid item Ht)).
    destruct (obj_get o (isoDate (itemTime item))) as [best |] eqn:Hbest.
    + exfalso.
      destruct (grouped_from _ _ G _ _ Hbest) as (earlier & Hin & Hkey & _).
      rewrite Forall_forall in Hnew. apply (Hnew earlier).
      * apply list_elem_of_In. exact Hin.
      * rewrite Hkey. symmetry. apply dateKeyOf_valid. exact Ht.
    + unfold forecastEntry. rewrite Hw. reflexivity.
Qed.

Lemma formatForecast_throws_witness :
  @formatForecast UTC
    {| data_list := [sample 43200 11] ++ sample 9000000000000 12 :: [] |}
  = Throw RangeError.
Proof.
  apply (proj1 (@formatForecast_throws UTC [sample 43200 11] []
                  (sample 9000000000000 12)
                  ltac:(repeat constructor; unfold validTime; simpl;
                        (lia || discriminate)))).
  unfold validTime, itemTime, maxTimeValue. simpl. lia.
Defined.

(** X19: a sample that is not strictly closer to noon than an earlier
    sample of its date has no effect on what [formatForecast] returns or
    throws, even when it has no weather condition. *)
Theorem formatForecast_ignores_later_farther `{LocalTimeZone}
    (a b : ForecastItem) (k : string) (l1 l2 l3 : list ForecastItem) :
  dateKeyOf a = Normal k -> dateKeyOf b = Normal k ->
  hourDistance (itemTime a) <= hourDistance (itemTime b) ->
  formatForecast {| data_list := l1 ++ a :: l2 ++ b :: l3 |} =
  formatForecast {| data_list := l1 ++ a :: l2 ++ l3 |}.
Proof.
  intros Ha Hb Hle. unfold formatForecast, groupByDay. simpl data_list.
  replace (l1 ++ a :: l2 ++ b :: l3) with ((l1 ++ a :: l2) ++ b :: l3)
    by (rewrite <- app_assoc; reflexivity).
  replace (l1 ++ a :: l2 ++ l3) with ((l1 ++ a :: l2) ++ l3)
    by (rewrite <- app_assoc; reflexivity).
  rewrite (forEach_app _ (l1 ++ a :: l2) (b :: l3)).
  rewrite (forEach_app _ (l1 ++ a :: l2) l3).
  destruct (forEach forecastStep (l1 ++ a :: l2) []) as [o |] eqn:Hp;
    cbn [cbind forEach]; [| reflexivity].
  rewrite (forecastStep_tie (l1 ++ a :: l2) o a b k);
    [reflexivity | | | exact Ha | exact Hb | lia].
  - exact (groupByDay_grouped _ _ Hp).
  - apply in_or_app. right. left. reflexivity.
Qed.

Lemma formatForecast_ignores_later_farther_witness :
  @formatForecast UTC
    {| data_list := [] ++ sample 43200 11 :: [] ++
                    {| dt := 64800; item_main := item_main (sample 0 0);
                       weather := []; wind := wind (sample 0 0) |} :: [] |}
  = @formatForecast UTC {| data_list := [] ++ sample 43200 11 :: [] ++ [] |}.
Proof.
  apply (@formatForecast_ignores_later_farther UTC (sample 43200 11)
           {| dt := 64800; item_main := item_main (sample 0 0);
              weather := []; wind := wind (sample 0 0) |}
           "1970-01-01" [] [] []);
    (reflexivity || (cbv; discriminate)).
Defined.

(** X20: the date key is the UTC day.  Two samples with valid times get
    the same date key exactly when their times fall on the same UTC day,
    whatever the local time zone. *)
Theorem dateKey_is_utc_day (a b : ForecastItem) :
  validTime (itemTime a) -> validTime (itemTime b) ->
  (dateKeyOf a = dateKeyOf b <-> utcDay (itemTime a) = utcDay (itemTime b)).
Proof.
  intros Ha Hb. rewrite !dateKeyOf_valid by assumption. split.
  - intros [= E]. apply isoDate_inj; assumption.
  - intros E. f_equal. apply isoDate_same_day. exact E.
Qed.

Lemma dateKey_is_utc_day_witness :
  dateKeyOf (sample 82800 10) = dateKeyOf (sample 3600 12) /\
  dateKeyOf (sample 82800 10) <> dateKeyOf (sample 90000 12).
Proof.
  split.
  - apply (proj2 (dateKey_is_utc_day (sample 82800 10) (sample 3600 12)
                    ltac:(unfold validTime, itemTime, maxTimeValue; simpl; lia)
                    ltac:(unfold validTime, itemTime, maxTimeValue; simpl; lia))).
    reflexivity.
  - intros E.
    apply (proj1 (dateKey_is_utc_day (sample 82800 10) (sample 90000 12)
                    ltac:(unfold validTime, itemTime, maxTimeValue; simpl; lia)
                    ltac:(unfold validTime, itemTime, maxTimeValue; simpl; lia))) in E.
    vm_compute in E. discriminate E.
Defined.

(** * Further properties of the icon mapping *)

(** X21: every inherited member has a name of seven characters or more,
    so an icon code of at most six characters always yields an emoji: the
    mapped one for the 18 known codes, the thermometer for the others. *)
Theorem getWeatherIcon_short_code (iconCode : string) :
  (String.length iconCode <= 6)%nat ->
  exists e, getWeatherIcon iconCode = EmojiText e /\
            (obj_get iconMap iconCode = None -> e = Thermometer) /\
            (forall e', obj_get iconMap iconCode = Some e' -> e = e').
Proof.
  intros Hlen. unfold getWeatherIcon, literal_get.
  destruct (obj_get iconMap iconCode) as [e |].
  - exists e. split; [reflexivity |]. split; [discriminate |].
    intros e' [= <-]. reflexivity.
  - destruct (existsb (String.eqb iconCode) Object_prototype_members) eqn:Hex.
    + exfalso. apply List.existsb_exists in Hex. destruct Hex as (m & Hm & Heq).
      apply String.eqb_eq in Heq. subst m.
      simpl in Hm.
      repeat (destruct Hm as [<- | Hm]; [simpl in Hlen; lia |]).
      exact Hm.
    + exists Thermometer. split; [reflexivity |]. split; [reflexivity |].
      discriminate.
Qed.

Lemma getWeatherIcon_short_code_witness :
  exists e, getWeatherIcon "99x" = EmojiText e /\
            (obj_get iconMap "99x" = None -> e = Thermometer) /\
            (forall e', obj_get iconMap "99x" = Some e' -> e = e').
Proof.
  apply (getWeatherIcon_short_code "99x"). simpl. lia.
Defined.

(** * Properties of the current conditions and of the requests *)




(** The product is rounded before [Math.round] sees it: 3.6 times
    0.41666666666666663 is less than 1.5, the binary64 product is 1.5,
    and the wind speed is 2. *)
Lemma formatCurrentWeather_rounds_the_product :
  (((41666666666666663 # 100000000000000000) * (36 # 10) < 15 # 10)%Q) /\
  exists cw,
    formatCurrentWeather
      {| data_name := data_name paris_now;
         data_sys := data_sys paris_now;
         data_main := data_main paris_now;
         data_wind := {| speed := 41666666666666663 # 100000000000000000 |};
         data_weather := data_weather paris_now;
         data_dt := data_dt paris_now;
         data_coord := data_coord paris_now |} = Normal cw /\
    cw_windSpeed cw = Finite 2.
Proof.
  split; [reflexivity |]. eexists. split; [reflexivity |].
  vm_compute. reflexivity.
Qed.

(** X23: the errors of [getCurrentWeather].  For a response that is not
    ok it rejects with a message chosen by the status: its own message
    for 404, its own message for 401, and for every other status the
    status text after "Failed to fetch weather data: ".  A rejected
    [fetch] and a body that does not parse are passed on as they are. *)
Theorem getCurrentWeather_errors (response : Response CurrentData) (r : reason) :
  (ok response = false -> status response = 404 ->
   getCurrentWeather (Fulfilled response) =
     Rejected (Error "City not found. Please check the spelling and try again.")) /\
  (ok response = false -> status response = 401 ->
   getCurrentWeather (Fulfilled response) =
     Rejected (Error "Invalid API key. Please check your configuration.")) /\
  (ok response = false -> status response <> 404 -> status response <> 401 ->
   getCurrentWeather (Fulfilled response) =
     Rejected (Error ("Failed to fetch weather data: " ++ statusText response)%string)) /\
  getCurrentWeather (Rejected r) = Rejected r /\
  (ok response = true -> json_body response = Rejected r ->
   getCurrentWeather (Fulfilled response) = Rejected r).
Proof.
  unfold getCurrentWeather. repeat split.
  - intros -> ->. reflexivity.
  - intros -> ->. reflexivity.
  - intros -> H404 H401. simpl.
    apply Z.eqb_neq in H404, H401. rewrite H404, H401. reflexivity.
  - intros -> ->. reflexivity.
Qed.

(** X24: [getCurrentWeatherByCoords] settles as [getCurrentWeather]
    does, except on a response that is not ok with status 404 or 401:
    there [getCurrentWeather] has a message of its own and
    [getCurrentWeatherByCoords] reports the status text like any other
    failure. *)
Theorem current_weather_requests_agree (fetched : settled (Response CurrentData)) :
  ((forall response, fetched = Fulfilled response -> ok response = false ->
      status response <> 404 /\ status response <> 401) ->
   getCurrentWeather fetched = getCurrentWeatherByCoords fetched) /\
  (forall response, fetched = Fulfilled response -> ok response = false ->
     status response = 404 \/ status response = 401 ->
     getCurrentWeatherByCoords fetched =
       Rejected (Error ("Failed to fetch weather data: " ++ statusText response)%string) /\
     getCurrentWeather fetched <> getCurrentWeatherByCoords fetched).
Proof.
  unfold getCurrentWeather, getCurrentWeatherByCoords. split.
  - destruct fetched as [response | r]; [| reflexivity].
    intros Hstatus. destruct (ok response) eqn:Hok; simpl; [reflexivity |].
    destruct (Hstatus response eq_refl Hok) as [H404 H401].
    apply Z.eqb_neq in H404, H401. rewrite H404, H401. reflexivity.
  - intros response -> Hok Hstatus. rewrite Hok. simpl.
    split; [reflexivity |].
    destruct Hstatus as [-> | ->]; simpl; discriminate.
Qed.

Lemma current_weather_requests_agree_witness :
  getCurrentWeather
    (Fulfilled {| ok := false; status := 500; statusText := "Server Error";
                  json_body := Fulfilled paris_now |})
  = getCurrentWeatherByCoords
      (Fulfilled {| ok := false; status := 500; statusText := "Server Error";
                    json_body := Fulfilled paris_now |}).
Proof.
  apply (proj1 (current_weather_requests_agree _)).
  intros response [= <-] _. simpl. split; discriminate.
Defined.

(** X25: [searchCities] never rejects and returns at most one city.  A
    response that is ok and whose body parses yields the one city of the
    body, with its name, country, latitude and longitude; a rejected
    [fetch], a response that is not ok and a body that does not parse
    yield the empty list. *)
Theorem searchCities_never_rejects (fetched : settled (Response CurrentData)) :
  exists cities,
    searchCities fetched = Fulfilled cities /\
    (length cities <= 1)%nat /\
    (forall c, In c cities ->
       exists response data,
         fetched = Fulfilled response /\ ok response = true /\
         json_body response = Fulfilled data /\
         match_name c = data_name data /\
         match_country c = sys_country (data_sys data) /\
         match_lat c = lat (data_coord data) /\
         match_lon c = lon (data_coord data)) /\
    (forall response data,
       fetched = Fulfilled response -> ok response = true ->
       json_body response = Fulfilled data ->
       cities = [ {| match_name := data_name data;
                     match_country := sys_country (data_sys data);
                     match_lat := lat (data_coord data);
                     match_lon := lon (data_coord data) |} ]) /\
    ((forall response data,
        fetched = Fulfilled response -> ok response = true ->
        json_body response <> Fulfilled data) ->
     cities = []).
Proof.
  unfold searchCities. destruct fetched as [response | r].
  - destruct (ok response) eqn:Hok; simpl.
    + destruct (json_body response) as [data | r] eqn:Hbody.
      * eexists. split; [reflexivity |]. split; [simpl; lia |].
        split; [| split].
        -- intros c [<- | []]. exists response, data. simpl.
           split; [reflexivity |]. split; [exact Hok |].
           split; [exact Hbody |]. repeat split.
        -- intros response' data' [= <-] _ Hbody'.
           rewrite Hbody in Hbody'. injection Hbody' as <-. reflexivity.
        -- intros Hnone. exfalso.
           exact (Hnone response data eq_refl Hok Hbody).
      * exists []. split; [reflexivity |]. split; [simpl; lia |].
        split; [intros c [] | split].
        -- intros response' data' [= <-] _ Hbody'. congruence.
        -- reflexivity.
    + exists []. split; [reflexivity |]. split; [simpl; lia |].
      split; [intros c [] | split].
      * intros response' data' [= <-] Hok'. congruence.
      * reflexivity.
  - exists []. split; [reflexivity |]. split; [simpl; lia |].
    split; [intros c [] | split]; [discriminate | reflexivity].
Qed.

Lemma searchCities_never_rejects_witness :
  searchCities (Fulfilled {| ok := true; status := 200; statusText := "OK";
                             json_body := Fulfilled paris_now |})
    = Fulfilled [ {| match_name := "Paris"; match_country := "FR";
                     match_lat := 4885 # 100; match_lon := 235 # 100 |} ] /\
  searchCities (Fulfilled {| ok := false; status := 404;
                             statusText := "Not Found";
                             json_body := Fulfilled paris_now |})
    = Fulfilled [].
Proof.
  split.
  - destruct (searchCities_never_rejects
                (Fulfilled {| ok := true; status := 200; statusText := "OK";
                              json_body := Fulfilled paris_now |}))
      as (cities & Hs & _ & _ & Hone & _).
    rewrite Hs. f_equal. exact (Hone _ paris_now eq_refl eq_refl eq_refl).
  - destruct (searchCities_never_rejects
                (Fulfilled {| ok := false; status := 404;
                              statusText := "Not Found";
                              json_body := Fulfilled paris_now |}))
      as (cities & Hs & _ & _ & _ & Hnone).
    rewrite Hs. f_equal. apply Hnone.
    intros response data [= <-]. discriminate.
Defined.

Lemma add_key_NoDup (ks : list string) (k : string) :
  NoDup ks -> NoDup (add_key ks k).
Proof.
  intros Hnd. unfold add_key.
  destruct (existsb (String.eqb k) ks) eqn:Hex; [exact Hnd |].
  apply NoDup_app. split; [exact Hnd |]. split; [| apply NoDup_singleton].
  intros x Hx Hx'. apply list_elem_of_singleton in Hx'. subst x.
  assert (Htrue : existsb (String.eqb k) ks = true); [| congruence].
  apply List.existsb_exists. exists k.
  split; [apply list_elem_of_In; exact Hx | apply String.eqb_refl].
Qed.

Lemma forEach_keys_NoDup `{LocalTimeZone} (rest items : list ForecastItem)
    (o o' : object DailyForecast) :
  grouped items o -> NoDup (obj_keys o) ->
  forEach forecastStep rest o = Normal o' -> NoDup (obj_keys o').
Proof.
  revert items o. induction rest as [| item rest IH]; intros items o G Hnd; simpl.
  - intros [= <-]. exact Hnd.
  - destruct (forecastStep o item) as [o1 |] eqn:Hstep; [| discriminate].
    simpl. apply (IH (items ++ [item]) o1).
    + exact (forecastStep_grouped items o o1 item G Hstep).
    + destruct (dateKeyOf item) as [k |] eqn:Hk;
        [| rewrite forecastStep_dateKey, Hk in Hstep; discriminate].
      rewrite (forecastStep_eq items o item k G Hk) in Hstep.
      destruct (obj_get o k) as [best |];
        [destruct (_ <? _); [| injection Hstep as <-; exact Hnd] |];
        (destruct (forecastEntry k item) as [e |]; [| discriminate]);
        injection Hstep as <-; rewrite obj_keys_set;
        apply add_key_NoDup; exact Hnd.
Qed.

(** X26: whenever [getForecast] is fulfilled, the response was ok, its
    body parsed, and the value is what [formatForecast] returns for the
    body: at most 5 entries with distinct date keys.  No assumption on
    the samples is needed. *)
Theorem getForecast_fulfilled `{LocalTimeZone}
    (fetched : settled (Response ForecastData)) (out : list DailyForecast) :
  getForecast fetched = Fulfilled out ->
  exists response data,
    fetched = Fulfilled response /\ ok response = true /\
    json_body response = Fulfilled data /\
    formatForecast data = Normal out /\
    (length out <= 5)%nat /\ NoDup (map date out).
Proof.
  unfold getForecast. destruct fetched as [response | r]; [| discriminate].
  destruct (ok response) eqn:Hok; simpl; [| discriminate].
  destruct (json_body response) as [data | r] eqn:Hbody; [| discriminate].
  destruct (formatForecast data) as [out' |] eqn:Hformat; simpl;
    [| discriminate].
  intros [= ->]. exists response, data.
  repeat (split; [first [reflexivity | assumption] |]).
  unfold formatForecast in Hformat.
  destruct (groupByDay (data_list data)) as [o |] eqn:Hg; [| discriminate].
  simpl in Hformat. injection Hformat as <-.
  split; [apply firstn_le_length |].
  pose proof (groupByDay_grouped _ _ Hg) as G.
  assert (Hnd : NoDup (obj_keys o)).
  { apply (forEach_keys_NoDup (data_list data) [] [] o grouped_nil);
      [constructor | exact Hg]. }
  rewrite <- firstn_map. apply take_NoDup.
  rewrite dates_are_keys; [exact Hnd |].
  apply Forall_forall. intros [k e] Hin. simpl.
  apply list_elem_of_In in Hin.
  pose proof (obj_get_NoDup o k e Hnd Hin) as He.
  destruct (grouped_entry_time _ _ k e G He) as (_ & _ & Hd). exact Hd.
Qed.

Lemma getForecast_fulfilled_witness :
  exists response data,
    Fulfilled {| ok := true; status := 200; statusText := "OK";
                 json_body := Fulfilled three_days |} = Fulfilled response /\
    ok response = true /\
    json_body response = Fulfilled data /\
    @formatForecast UTC data =
      Normal [ sample_entry "1970-01-01" 50400 13;
               sample_entry "1970-01-02" 129600 14;
               sample_entry "1970-01-03" 216000 16 ] /\
    (3 <= 5)%nat /\
    NoDup ["1970-01-01"; "1970-01-02"; "1970-01-03"].
Proof.
  apply (@getForecast_fulfilled UTC
           (Fulfilled {| ok := true; status := 200; statusText := "OK";
                         json_body := Fulfilled three_days |})).
  reflexivity.
Defined.
